(** * tools/keep-alive.js: the Railway keep-alive prober

    A shallow embedding of the script and of the part of the JavaScript
    run time it relies on (module constants, [fetch], [console],
    [Date], [setInterval] and the event loop), followed by the
    properties of the prober. The shell side of the repository, the
    deployment script and the keep-alive workflow, comes after the prober
    in each part.

    Time is virtual: [clock] counts milliseconds since the process
    started, synchronous code takes no time and timers fire exactly when
    they are due. *)

From stdpp Require Import gmap strings list.
From Stdlib Require Import ZArith Ascii DecimalString Lia Sorted.

Local Open Scope Z_scope.

(** ** JavaScript values used by the script *)

(** Template-literal rendering of an integral Number. *)
Definition show (z : Z) : string := NilZero.string_of_int (Z.to_int z).

(** [a || b] on a possibly undefined string: [undefined] and the empty
    string are falsy. *)
Definition js_or (a : option string) (b : string) : string :=
  match a with
  | Some EmptyString => b
  | Some s => s
  | None => b
  end.

(** Decimal digits of [n], left-padded with zeros to [width]. *)
Fixpoint zeros (k : nat) : string :=
  match k with
  | O => ""
  | S k' => "0" +:+ zeros k'
  end.

Definition pad (width : nat) (n : Z) : string :=
  let digits := show n in
  zeros (width - String.length digits) +:+ digits.

(** Day number since 1970-01-01 to (year, month, day) in the proleptic
    Gregorian calendar. *)
Definition civil_from_days (days : Z) : Z * Z * Z :=
  let z := days + 719468 in
  let era := z / 146097 in
  let doe := z - era * 146097 in
  let yoe := (doe - doe / 1460 + doe / 36524 - doe / 146096) / 365 in
  let doy := doe - (365 * yoe + yoe / 4 - yoe / 100) in
  let mp := (5 * doy + 2) / 153 in
  let d := doy - (153 * mp + 2) / 5 + 1 in
  let m := if mp <? 10 then mp + 3 else mp - 9 in
  let y := yoe + era * 400 + (if m <=? 2 then 1 else 0) in
  (y, m, d).

(** [Date.prototype.toISOString] of a time value (milliseconds since the
    Unix epoch, UTC): [YYYY-MM-DDTHH:mm:ss.sssZ], with a signed six-digit
    year outside 0..9999. *)
Definition toISOString (t : Z) : string :=
  let '(y, m, d) := civil_from_days (t / 86400000) in
  let ms := t mod 86400000 in
  let year :=
    if (0 <=? y) && (y <=? 9999) then pad 4 y
    else (if y <? 0 then "-" else "+") +:+ pad 6 (Z.abs y) in
  year +:+ "-" +:+ pad 2 m +:+ "-" +:+ pad 2 d +:+ "T"
    +:+ pad 2 (ms / 3600000) +:+ ":" +:+ pad 2 (ms / 60000 mod 60) +:+ ":"
    +:+ pad 2 (ms / 1000 mod 60) +:+ "." +:+ pad 3 (ms mod 1000) +:+ "Z".

(** An [Error] object, as far as the script looks at it. *)
Record JsError := { message : string }.

(** A [Response]; [ok] is derived from [status] as the Fetch standard
    defines it (200 to 299 inclusive). *)
Record Response := { status : Z }.

Definition ok (r : Response) : bool := (200 <=? status r) && (status r <=? 299).

Record RequestInit := { method : string; headers : list (string * string) }.

Record Request := { url : string; init : RequestInit }.

(** How the promise returned by [fetch] settles. *)
Inductive FetchResult :=
| Fulfilled (response : Response)
| Rejected (error : JsError).

Inductive Stream := Stdout | Stderr.

Record LogEntry := { stream : Stream; text : string }.

(** [console.log] and [console.error] join their arguments with a space
    (the script never passes a first argument with a format specifier
    together with further arguments). *)
Definition format (args : list string) : string := String.concat " " args.

(** ** Bodies of async functions

    The effects of a function body, in the order the body performs them.
    [AwaitFetch] is the one suspension point: the continuation receives
    the way the promise settled. *)
Inductive Prog (A : Type) : Type :=
| Ret (a : A)
| Throw (e : JsError)
| Console (s : Stream) (args : list string) (k : Prog A)
| NewDate (k : Z -> Prog A)
| AwaitFetch (req : Request) (k : FetchResult -> Prog A).

Arguments Ret {A} a.
Arguments Throw {A} e.
Arguments Console {A} s args k.
Arguments NewDate {A} k.
Arguments AwaitFetch {A} req k.

Fixpoint bind {A B : Type} (p : Prog A) (f : A -> Prog B) : Prog B :=
  match p with
  | Ret a => f a
  | Throw e => Throw e
  | Console s args k => Console s args (bind k f)
  | NewDate k => NewDate (fun t => bind (k t) f)
  | AwaitFetch req k => AwaitFetch req (fun r => bind (k r) f)
  end.

#[global] Instance Prog_ret : MRet Prog := @Ret.
#[global] Instance Prog_bind : MBind Prog := fun A B f p => bind p f.

(** [try { body } catch (error) { handler }] *)
Fixpoint try_catch {A : Type} (body : Prog A) (handler : JsError -> Prog A) : Prog A :=
  match body with
  | Ret a => Ret a
  | Throw e => handler e
  | Console s args k => Console s args (try_catch k handler)
  | NewDate k => NewDate (fun t => try_catch (k t) handler)
  | AwaitFetch req k => AwaitFetch req (fun r => try_catch (k r) handler)
  end.

(** [await fetch(url, init)]: a rejection is thrown at the [await]. *)
Definition fetch (url : string) (init : RequestInit) : Prog Response :=
  AwaitFetch {| url := url; init := init |}
    (fun r => match r with
              | Fulfilled response => Ret response
              | Rejected error => Throw error
              end).

Definition console_log (args : list string) : Prog unit := Console Stdout args (Ret tt).
Definition console_error (args : list string) : Prog unit := Console Stderr args (Ret tt).

(** [new Date()]: the current time value. *)
Definition new_Date : Prog Z := NewDate Ret.

(** ** The script *)

(** The module-level constants. *)
Record Consts := {
  RAILWAY_URL : string;
  PING_INTERVAL : Z;
  HEALTH_ENDPOINT : string
}.

Definition module_init (env : gmap string string) : Consts :=
  {| RAILWAY_URL := js_or (env !! "RAILWAY_URL") "https://your-app.railway.app";
     PING_INTERVAL := 10 * 60 * 1000;
     HEALTH_ENDPOINT := "/health" |}.

Definition pingServer (c : Consts) : Prog unit :=
  try_catch
    (response ← fetch (RAILWAY_URL c +:+ HEALTH_ENDPOINT c)
                  {| method := "GET";
                     headers := [("User-Agent", "KeepAlive-Bot/1.0")] |};
     if ok response then
       now ← new_Date;
       console_log ["✅ [" +:+ toISOString now +:+ "] Server is alive"]
     else
       now ← new_Date;
       console_log ["⚠️ [" +:+ toISOString now +:+ "] Server responded with "
                      +:+ show (status response)])
    (fun error =>
       now ← new_Date;
       console_error ["❌ [" +:+ toISOString now +:+ "] Failed to ping server:";
                      message error]).

(** ** The run time: timers, pending requests and the event loop *)

(** The functions of the script that can be called by reference. *)
Inductive Callback := pingServer_fn.

Definition body (f : Callback) : Consts -> Prog unit :=
  match f with
  | pingServer_fn => pingServer
  end.

(** What the event loop has still to run: a repeating timer, or the rest
    of an async function waiting for request number [id] to settle. *)
Inductive Task :=
| Interval (f : Callback) (delay : Z)
| Settle (id : nat) (k : Prog unit).

Record Pending := { due : Z; task : Task }.

(** What the script does not control: the environment variables, the wall
    clock at process start (milliseconds since the Unix epoch) and, for
    the [id]-th request sent, how it settles and after how many
    milliseconds. *)
Record Environment := {
  process_env : gmap string string;
  started : Z;
  network : nat -> FetchResult * N
}.

(** The process: the module constants, the virtual clock, the agenda of
    the event loop (ordered by due time), and what an observer has seen
    so far: the instants at which [pingServer] was called, the requests
    sent, the lines written, and the error that ended the process, if any. *)
Record Process := {
  consts : Consts;
  clock : Z;
  agenda : list Pending;
  calls : list Z;
  requests : list (Z * Request);
  output : list LogEntry;
  uncaught : option JsError
}.

Definition with_clock (t : Z) (s : Process) : Process :=
  {| consts := consts s; clock := t; agenda := agenda s; calls := calls s;
     requests := requests s; output := output s; uncaught := uncaught s |}.

Definition with_agenda (a : list Pending) (s : Process) : Process :=
  {| consts := consts s; clock := clock s; agenda := a; calls := calls s;
     requests := requests s; output := output s; uncaught := uncaught s |}.

Definition called (s : Process) : Process :=
  {| consts := consts s; clock := clock s; agenda := agenda s;
     calls := calls s ++ [clock s];
     requests := requests s; output := output s; uncaught := uncaught s |}.

Definition sent (req : Request) (s : Process) : Process :=
  {| consts := consts s; clock := clock s; agenda := agenda s; calls := calls s;
     requests := requests s ++ [(clock s, req)];
     output := output s; uncaught := uncaught s |}.

Definition written (e : LogEntry) (s : Process) : Process :=
  {| consts := consts s; clock := clock s; agenda := agenda s; calls := calls s;
     requests := requests s; output := output s ++ [e]; uncaught := uncaught s |}.

Definition crashed (e : JsError) (s : Process) : Process :=
  {| consts := consts s; clock := clock s; agenda := agenda s; calls := calls s;
     requests := requests s; output := output s; uncaught := Some e |}.

(** Insertion by due time, after the tasks that are due no later. *)
Fixpoint schedule (p : Pending) (a : list Pending) : list Pending :=
  match a with
  | [] => [p]
  | q :: a' => if due p <? due q then p :: q :: a' else q :: schedule p a'
  end.

(** Runs a function body until it returns, throws or suspends at an
    [await]. An exception that leaves the body ends the process (an
    unhandled rejection, for an async function). *)
Fixpoint exec (E : Environment) (p : Prog unit) (s : Process) : Process :=
  match p with
  | Ret _ => s
  | Throw e => crashed e s
  | Console st args k => exec E k (written {| stream := st; text := format args |} s)
  | NewDate k => exec E (k (started E + clock s)) s
  | AwaitFetch req k =>
      let id := length (requests s) in
      let '(result, latency) := network E id in
      let p := {| due := clock s + Z.of_N latency; task := Settle id (k result) |} in
      with_agenda (schedule p (agenda s)) (sent req s)
  end.

(** [f()], not awaited. *)
Definition call (E : Environment) (f : Callback) (s : Process) : Process :=
  exec E (body f (consts s)) (called s).

(** The delay a timer really gets: 1 when the argument is below 1 or
    above 2^31 - 1. *)
Definition timer_delay (delay : Z) : Z :=
  if (delay <? 1) || (2147483647 <? delay) then 1 else delay.

Definition setInterval (f : Callback) (delay : Z) (s : Process) : Process :=
  let d := timer_delay delay in
  with_agenda (schedule {| due := clock s + d; task := Interval f d |} (agenda s)) s.

(** The top level of the script, from a fresh process. *)
Definition main (E : Environment) : Process :=
  let c := module_init (process_env E) in
  let s := {| consts := c; clock := 0; agenda := []; calls := [];
              requests := []; output := []; uncaught := None |} in
  let s := exec E (console_log ["🚀 Starting keep-alive for " +:+ RAILWAY_URL c]) s in
  let s := exec E (console_log ["📡 Pinging every " +:+ show (PING_INTERVAL c / 60000)
                                  +:+ " minutes"]) s in
  let s := setInterval pingServer_fn (PING_INTERVAL c) s in
  call E pingServer_fn s.

(** One turn of the event loop: the first task of the agenda runs at its
    due time; a timer is armed again before its callback is called. *)
Definition step (E : Environment) (s : Process) : Process :=
  match uncaught s, agenda s with
  | None, p :: rest =>
      let s := with_agenda rest (with_clock (due p) s) in
      match task p with
      | Interval f delay =>
          let again := {| due := due p + delay; task := Interval f delay |} in
          call E f (with_agenda (schedule again rest) s)
      | Settle _ k => exec E k s
      end
  | _, _ => s
  end.

(** The process after [n] turns of the event loop. *)
Fixpoint run (E : Environment) (n : nat) : Process :=
  match n with
  | O => main E
  | S n' => step E (run E n')
  end.

Definition is_settle (p : Pending) : bool :=
  match task p with
  | Settle _ _ => true
  | Interval _ _ => false
  end.

(** The requests sent and not yet settled. *)
Definition in_flight (s : Process) : nat := length (List.filter is_settle (agenda s)).

(** Differences between consecutive instants. *)
Fixpoint gaps (ts : list Z) : list Z :=
  match ts with
  | a :: (b :: _) as rest => (b - a) :: gaps rest
  | _ => []
  end.

(** The timers of an agenda: due time, callback and delay. *)
Definition timers (a : list Pending) : list (Z * Callback * Z) :=
  flat_map (fun p => match task p with
                     | Interval f delay => [(due p, f, delay)]
                     | Settle _ _ => []
                     end) a.

(** What is left of a suspended body once its request has settled. *)
Definition continuation (p : Prog unit) (result : FetchResult) : Prog unit :=
  match p with
  | AwaitFetch _ k => k result
  | _ => p
  end.

(** The request a probe sends. *)
Definition ping_request (c : Consts) : Request :=
  {| url := RAILWAY_URL c +:+ HEALTH_ENDPOINT c;
     init := {| method := "GET"; headers := [("User-Agent", "KeepAlive-Bot/1.0")] |} |}.

(** [k] turns of the event loop from any state. *)
Definition turns (E : Environment) (k : nat) (s : Process) : Process :=
  Nat.iter k (step E) s.

(** ** What the properties are stated with *)

(** The line a settled probe writes at time value [now]. *)
Definition outcome_entry (now : Z) (result : FetchResult) : LogEntry :=
  match result with
  | Fulfilled r =>
      if ok r
      then {| stream := Stdout;
              text := "✅ [" +:+ toISOString now +:+ "] Server is alive" |}
      else {| stream := Stdout;
              text := "⚠️ [" +:+ toISOString now +:+ "] Server responded with "
                        +:+ show (status r) |}
  | Rejected e =>
      {| stream := Stderr;
         text := format ["❌ [" +:+ toISOString now +:+ "] Failed to ping server:";
                         message e] |}
  end.

(** The two lines the top level writes. *)
Definition banners (c : Consts) : list LogEntry :=
  [ {| stream := Stdout; text := "🚀 Starting keep-alive for " +:+ RAILWAY_URL c |};
    {| stream := Stdout; text := "📡 Pinging every 10 minutes" |} ].

(** A pending continuation is the rest of [pingServer], given the way the
    network settles its request. *)
Definition waiting (E : Environment) (p : Pending) : Prop :=
  match task p with
  | Settle id k =>
      k = continuation (pingServer (module_init (process_env E))) (fst (network E id))
  | Interval _ _ => True
  end.

Record Inv (E : Environment) (s : Process) : Prop := {
  inv_consts : consts s = module_init (process_env E);
  inv_uncaught : uncaught s = None;
  inv_called : calls s <> [];
  inv_calls : calls s = map (fun k => Z.of_nat k * 600000) (seq 0 (length (calls s)));
  inv_requests : requests s = map (fun t => (t, ping_request (consts s))) (calls s);
  inv_timers :
    timers (agenda s) = [(Z.of_nat (length (calls s)) * 600000, pingServer_fn, 600000)];
  inv_waiting : Forall (waiting E) (agenda s);
  inv_output :
    exists rest, output s = banners (consts s) ++ rest
                 /\ (length rest + in_flight s)%nat = length (calls s)
}.

(** The agenda holds the timer alone, or one pending request due before
    the timer and then the timer. *)
Definition serial (s : Process) : Prop :=
  let timer := {| due := Z.of_nat (length (calls s)) * 600000;
                  task := Interval pingServer_fn 600000 |} in
  agenda s = [timer]
  \/ exists t id k,
       t < due timer /\ agenda s = [{| due := t; task := Settle id k |}; timer].

(** ** The log, probe by probe *)

(** The instant the request of probe [id] settles: the probe starts [id]
    intervals after the process and its request takes its latency. *)
Definition settles_at (E : Environment) (id : nat) : Z :=
  Z.of_nat id * 600000 + Z.of_N (snd (network E id)).

(** The line probe [id] writes. *)
Definition line_of (E : Environment) (id : nat) : LogEntry :=
  outcome_entry (started E + settles_at E id) (fst (network E id)).

(** The requests an agenda still waits for. *)
Definition pending_ids (a : list Pending) : list nat :=
  flat_map (fun p => match task p with
                     | Settle id _ => [id]
                     | Interval _ _ => []
                     end) a.

Definition due_le (p q : Pending) : Prop := due p <= due q.

(** A pending request is due when the network settles it. *)
Definition due_when_settled (E : Environment) (p : Pending) : Prop :=
  match task p with
  | Settle id _ => due p = settles_at E id
  | Interval _ _ => True
  end.

(** The probes [ids] have written their lines, in that order; they and the
    pending ones are the probes started so far; the agenda is in due order
    and nothing in it is due in the past. *)
Record Ledger (E : Environment) (s : Process) (ids : list nat) : Prop := {
  led_output : output s = banners (consts s) ++ map (line_of E) ids;
  led_ids : Permutation (ids ++ pending_ids (agenda s)) (seq 0 (length (calls s)));
  led_due : Forall (due_when_settled E) (agenda s);
  led_sorted : StronglySorted due_le (agenda s);
  led_clock : Forall (fun p => clock s <= due p) (agenda s);
  led_past : Forall (fun id => settles_at E id <= clock s) ids;
  led_chron : StronglySorted Z.le (map (settles_at E) ids)
}.

(** [k] timers have fired and no request has settled: every pending
    request is due later than [B] intervals after the start. *)
Definition backlog (B k : nat) (s : Process) : Prop :=
  length (calls s) = S k
  /\ in_flight s = S k
  /\ Forall (fun p => is_settle p = true -> Z.of_nat B * 600000 < due p) (agenda s).

(** ** Sample environments *)

(** The variable is set, the server answers 503 after 50 ms. *)
Definition degraded : Environment :=
  {| process_env := {["RAILWAY_URL" := "https://example.test"]};
     started := 1793689200000;
     network := fun _ => (Fulfilled {| status := 503 |}, 50%N) |}.

(** Nothing is set, the server answers 200 after 50 ms. *)
Definition healthy : Environment :=
  {| process_env := ∅;
     started := 1793689200000;
     network := fun _ => (Fulfilled {| status := 200 |}, 50%N) |}.

(** The server answers 200, but only after 700 s. *)
Definition sluggish : Environment :=
  {| process_env := ∅;
     started := 1793689200000;
     network := fun _ => (Fulfilled {| status := 200 |}, 700000%N) |}.

(** * The shell scripts: infrastructure/scripts/deploy.sh and the
      keep-alive workflow

    A script is the tree of what it prints and of the commands it runs;
    what a command answers (its exit status and its standard output, or
    the reply for [read]) is not the script's to decide. *)

Module Shell.

(** A command as the script writes it: a simple command, a pipeline of
    two, or a simple command with its output redirected to a file.
    Redirections to [/dev/null] are left out: they do not change the
    status. *)
Inductive Command :=
| Cmd (words : list string)
| Pipe (producer consumer : list string)
| Into (words : list string) (path : string).

(** What an observer sees: a line written with [echo] or with [echo -e]
    (the argument, before its escapes are interpreted), or a command run,
    with its exit status. *)
Inductive Event :=
| Said (escapes : bool) (text : string)
| Ran (c : Command) (status : Z).

Inductive Sh (A : Type) : Type :=
| Done (a : A)
| Exit (code : Z)
| Say (escapes : bool) (text : string) (k : Sh A)
| Run (c : Command) (k : Z -> string -> Sh A).

Arguments Done {A} a.
Arguments Exit {A} code.
Arguments Say {A} escapes text k.
Arguments Run {A} c k.

Fixpoint sh_bind {A B : Type} (p : Sh A) (f : A -> Sh B) : Sh B :=
  match p with
  | Done a => f a
  | Exit code => Exit code
  | Say e t k => Say e t (sh_bind k f)
  | Run c k => Run c (fun st out => sh_bind (k st out) f)
  end.

#[global] Instance Sh_ret : MRet Sh := @Done.
#[global] Instance Sh_bind : MBind Sh := fun A B f p => sh_bind p f.

(** [echo text] and [echo -e text]. *)
Definition echo (text : string) : Sh unit := Say false text (Done tt).
Definition echo_e (text : string) : Sh unit := Say true text (Done tt).

(** A command in a place where [set -e] applies: a status other than 0
    ends the script with that status. The result is the output. *)
Definition must (c : Command) : Sh string :=
  Run c (fun st out => if st =? 0 then Done out else Exit st).

(** A command whose status is only tested ([if], [||]). *)
Definition attempt (c : Command) : Sh (Z * string) :=
  Run c (fun st out => Done (st, out)).

Definition newline : string := String "010"%char "".
Definition dquote : string := String "034"%char "".

(** What a command substitution keeps of an output: all but the trailing
    newlines. *)
Fixpoint strip_newlines (s : string) : string :=
  match s with
  | EmptyString => EmptyString
  | String c s' =>
      match strip_newlines s' with
      | EmptyString => if Ascii.eqb c "010"%char then EmptyString
                       else String c EmptyString
      | r => String c r
      end
  end.

(** The answers of the commands: for the [i]-th command run (counting
    from 0), its exit status and its output. *)
Definition Oracle : Type := nat -> Command -> Z * string.

(** The events of a script and how it ends: an exit status, or the end
    of the text. *)
Fixpoint perform {A : Type} (o : Oracle) (p : Sh A) (i : nat)
  : list Event * (Z + A) :=
  match p with
  | Done a => ([], inr a)
  | Exit code => ([], inl code)
  | Say e t k => let '(tr, r) := perform o k i in (Said e t :: tr, r)
  | Run c k =>
      let '(st, out) := o i c in
      let '(tr, r) := perform o (k st out) (S i) in
      (Ran c st :: tr, r)
  end.

(** The exit status of the script: the scripts here end their text on a
    command that succeeded. *)
Definition status_of {A : Type} (r : Z + A) : Z :=
  match r with
  | inl code => code
  | inr _ => 0
  end.

(** The commands run in a trace. *)
Definition commands (tr : list Event) : list (Command * Z) :=
  flat_map (fun e => match e with
                     | Ran c st => [(c, st)]
                     | Said _ _ => []
                     end) tr.

End Shell.

Module Deploy.

Import Shell.

Section Script.

(** [$0] and the directory two levels above the script. *)
Variable script : string.
Variable PROJECT_ROOT : string.

Definition RED : string := "\033[0;31m".
Definition GREEN : string := "\033[0;32m".
Definition YELLOW : string := "\033[1;33m".
Definition BLUE : string := "\033[0;34m".
Definition NC : string := "\033[0m".

Definition log (msg : string) : Sh unit :=
  echo_e (GREEN +:+ "[INFO]" +:+ NC +:+ " " +:+ msg).

Definition warn (msg : string) : Sh unit :=
  echo_e (YELLOW +:+ "[WARN]" +:+ NC +:+ " " +:+ msg).

Definition error (msg : string) : Sh unit :=
  echo_e (RED +:+ "[ERROR]" +:+ NC +:+ " " +:+ msg);; Exit 1.

Definition info (msg : string) : Sh unit :=
  echo_e (BLUE +:+ "[DEPLOY]" +:+ NC +:+ " " +:+ msg).

(** [if ! c; then error msg; fi] *)
Definition require (c : Command) (msg : string) : Sh unit :=
  r ← attempt c; if fst r =? 0 then Done tt else error msg.

Definition has_railway : Command := Cmd ["command"; "-v"; "railway"].
Definition has_vercel : Command := Cmd ["command"; "-v"; "vercel"].
Definition railway_whoami : Command := Cmd ["railway"; "whoami"].
Definition vercel_whoami : Command := Cmd ["vercel"; "whoami"].

Definition check_prerequisites : Sh unit :=
  log "デプロイ前のチェックを実行しています...";;
  require has_railway
    "Railway CLI がインストールされていません。./scripts/setup.sh を実行してください";;
  require has_vercel
    "Vercel CLI がインストールされていません。./scripts/setup.sh を実行してください";;
  require railway_whoami
    "Railway にログインしていません。'railway login' を実行してください";;
  require vercel_whoami
    "Vercel にログインしていません。'vercel login' を実行してください";;
  log "前提条件のチェックが完了しました".

Definition railway_up : Command := Cmd ["railway"; "up"].
Definition railway_url_file : string := PROJECT_ROOT +:+ "/.railway_url".

Definition ask_configured : Command :=
  Cmd ["read"; "-p"; "環境変数は設定済みですか？ (y/N): "; "-n"; "1"; "-r"].

Definition deploy_backend : Sh unit :=
  log "バックエンドを Railway にデプロイしています...";;
  must (Cmd ["cd"; PROJECT_ROOT]);;
  missing ← attempt (Cmd ["["; "!"; "-f"; PROJECT_ROOT +:+ "/.railway/project.json"; "]"]);
  (if fst missing =? 0
   then info "Railway プロジェクトを初期化しています...";;
        must (Cmd ["railway"; "init"]);; Done tt
   else Done tt);;
  info "必要な環境変数が設定されているか確認してください:";;
  echo "  - QDRANT_URL";;
  echo "  - QDRANT_API_KEY";;
  echo "  - ENVIRONMENT";;
  REPLY ← must ask_configured;
  echo "";;
  (if bool_decide (REPLY = "y" \/ REPLY = "Y")
   then Done tt
   else info "Railway の環境変数を設定してください:";;
        echo ("  railway variables set QDRANT_URL=" +:+ dquote +:+ "your-qdrant-url" +:+ dquote);;
        echo ("  railway variables set QDRANT_API_KEY=" +:+ dquote +:+ "your-api-key" +:+ dquote);;
        echo ("  railway variables set ENVIRONMENT=" +:+ dquote +:+ "production" +:+ dquote);;
        Exit 0);;
  info "Railway にデプロイ中...";;
  must railway_up;;
  found ← attempt (Pipe ["railway"; "status"; "--json"] ["jq"; "-r"; ".deployments[0].url"]);
  let BACKEND_URL :=
    strip_newlines (snd found +:+ (if fst found =? 0 then "" else newline)) in
  if bool_decide (BACKEND_URL = "")
  then warn "バックエンドURLを自動取得できませんでした。Railway ダッシュボードで確認してください"
  else log ("バックエンドのデプロイが完了しました: " +:+ BACKEND_URL);;
       must (Into ["echo"; BACKEND_URL] railway_url_file);; Done tt.

Definition vercel_prod : Command := Cmd ["vercel"; "--prod"].

Definition deploy_frontend : Sh unit :=
  log "フロントエンドを Vercel にデプロイしています...";;
  must (Cmd ["cd"; PROJECT_ROOT +:+ "/frontend"]);;
  known ← attempt (Cmd ["["; "-f"; railway_url_file; "]"]);
  (if fst known =? 0
   then out ← must (Cmd ["cat"; railway_url_file]);
        let BACKEND_URL := strip_newlines out in
        info ("バックエンドURL: " +:+ BACKEND_URL);;
        added ← attempt (Cmd ["vercel"; "env"; "add"; "VITE_API_URL"; "production"; BACKEND_URL]);
        if fst added =? 0 then Done tt
        else warn "環境変数の設定をスキップしました（既に設定済みの可能性があります）"
   else warn "バックエンドURLが見つかりません。手動で VITE_API_URL を設定してください");;
  package ← attempt (Cmd ["["; "-f"; "package.json"; "]"]);
  (if fst package =? 0
   then info "依存関係をインストール中...";;
        must (Cmd ["npm"; "install"]);;
        info "ビルドテストを実行中...";;
        must (Cmd ["npm"; "run"; "build"]);; Done tt
   else error "frontend/package.json が見つかりません。フロントエンドが実装されていません");;
  info "Vercel にデプロイ中...";;
  must vercel_prod;;
  log "フロントエンドのデプロイが完了しました".

Definition show_deployment_info : Sh unit :=
  log "🎉 デプロイが完了しました！";;
  echo "";;
  known ← attempt (Cmd ["["; "-f"; railway_url_file; "]"]);
  (if fst known =? 0
   then out ← must (Cmd ["cat"; railway_url_file]);
        echo ("バックエンドAPI: " +:+ strip_newlines out)
   else Done tt);;
  echo "フロントエンド: Vercel ダッシュボードで URL を確認してください";;
  echo "";;
  echo "次のステップ:";;
  echo "1. 両方のサービスが正常に動作することを確認";;
  echo "2. バックエンドの /health エンドポイントをテスト";;
  echo "3. フロントエンドからバックエンドAPIへの接続をテスト";;
  echo "";;
  echo "問題がある場合は infrastructure/DEPLOYMENT.md のトラブルシューティングを参照してください".

Definition show_help : Sh unit :=
  echo ("使用方法: " +:+ script +:+ " [オプション]");;
  echo "";;
  echo "オプション:";;
  echo "  --backend-only    バックエンドのみデプロイ";;
  echo "  --frontend-only   フロントエンドのみデプロイ";;
  echo "  --help           このヘルプを表示";;
  echo "";;
  echo "例:";;
  echo ("  " +:+ script +:+ "                    # 全体をデプロイ");;
  echo ("  " +:+ script +:+ " --backend-only     # バックエンドのみデプロイ");;
  echo ("  " +:+ script +:+ " --frontend-only    # フロントエンドのみデプロイ").

(** [main "$@"]; [arg] is [${1:-}], empty when there is no argument. *)
Definition main (arg : string) : Sh unit :=
  if bool_decide (arg = "--help") then
    show_help;; Exit 0
  else if bool_decide (arg = "--backend-only") then
    info "バックエンドのみをデプロイします";;
    check_prerequisites;;
    deploy_backend
  else if bool_decide (arg = "--frontend-only") then
    info "フロントエンドのみをデプロイします";;
    check_prerequisites;;
    deploy_frontend
  else if bool_decide (arg = "") then
    info "ニコニ・コモンズベクトル検索システム デプロイを開始します";;
    check_prerequisites;;
    deploy_backend;;
    deploy_frontend;;
    show_deployment_info
  else
    error ("不明なオプション: " +:+ arg);;
    show_help;;
    Exit 1.

End Script.

(** The four checks of [check_prerequisites], and what they leave in a
    trace when all pass. *)
Definition checks : list Command :=
  [has_railway; has_vercel; railway_whoami; vercel_whoami].

Definition checks_passed : list (Command * Z) :=
  map (fun c => (c, 0)) checks.

Definition npm_install : Command := Cmd ["npm"; "install"].
Definition npm_run_build : Command := Cmd ["npm"; "run"; "build"].

(** Sample answers: every command succeeds, the project is initialised,
    [jq] and [cat] print a URL, and the user types [y] ... *)
Definition agreeable : Oracle :=
  fun _ c =>
    match c with
    | Cmd ("read" :: _) => (0, "y")
    | Cmd ("[" :: "!" :: _) => (1, "")
    | Cmd ["cat"; _] => (0, "https://backend.example" +:+ newline)
    | Pipe _ _ => (0, "https://backend.example" +:+ newline)
    | _ => (0, "")
    end.

(** ... or types [n]. *)
Definition reluctant : Oracle :=
  fun i c =>
    match c with
    | Cmd ("read" :: _) => (0, "n")
    | _ => agreeable i c
    end.

End Deploy.

Module Workflow.

Import Shell.

Section Step.

(** The value the script gives its variable [RAILWAY_URL]: the secret,
    or the placeholder. *)
Variable RAILWAY_URL : string.

Definition probe : Command :=
  Cmd ["curl"; "-s"; "-o"; "/dev/null"; "-w"; "%{http_code}";
       RAILWAY_URL +:+ "/health"].

Definition model_info : Command :=
  Pipe ["curl"; "-s"; RAILWAY_URL +:+ "/api/model/info"] ["head"; "-200"].

(** The [run] text of the step "Ping Railway App". *)
Definition ping : Sh unit :=
  echo "🚀 Pinging Railway app to prevent sleep...";;
  answer ← attempt probe;
  let response :=
    strip_newlines
      (snd answer +:+ (if fst answer =? 0 then "" else "000" +:+ newline)) in
  (if bool_decide (response = "200")
   then echo ("✅ App is alive (HTTP " +:+ response +:+ ")")
   else echo ("⚠️ App response: HTTP " +:+ response));;
  echo "🔥 Checking model warmup status...";;
  shown ← attempt model_info;
  if fst shown =? 0 then Done tt else echo "Model info not available".

End Step.

End Workflow.

Arguments toISOString : simpl never.
Arguments show : simpl never.
Arguments format : simpl never.
Arguments String.append : simpl never.

(** * Properties *)

(** ** The agenda *)

Lemma timers_schedule_settle p a :
  is_settle p = true -> timers (schedule p a) = timers a.
Proof.
  intros Hp. induction a as [|q a IH]; simpl.
  - unfold is_settle in Hp. destruct (task p); [discriminate | reflexivity].
  - destruct (due p <? due q); simpl.
    + unfold is_settle in Hp. destruct (task p); [discriminate | reflexivity].
    + now rewrite IH.
Qed.

Lemma timers_schedule_interval t f d a :
  timers a = [] ->
  timers (schedule {| due := t; task := Interval f d |} a) = [(t, f, d)].
Proof.
  induction a as [|q a IH]; simpl; intros Ha; [reflexivity|].
  destruct (task q) eqn:Hq; [discriminate|]. simpl in Ha.
  destruct (t <? due q); simpl; rewrite Hq; simpl.
  - now rewrite Ha.
  - now apply IH.
Qed.

Lemma Forall_schedule (P : Pending -> Prop) p a :
  P p -> Forall P a -> Forall P (schedule p a).
Proof.
  intros Hp Ha. induction Ha as [|q a Hq Ha IH]; simpl.
  - now repeat constructor.
  - destruct (due p <? due q); repeat constructor; assumption.
Qed.

Lemma filter_schedule_settle p a :
  is_settle p = true ->
  length (List.filter is_settle (schedule p a)) = S (length (List.filter is_settle a)).
Proof.
  intros Hp. induction a as [|q a IH]; simpl.
  - now rewrite Hp.
  - destruct (due p <? due q); simpl.
    + now rewrite Hp.
    + destruct (is_settle q); simpl; now rewrite IH.
Qed.

Lemma filter_schedule_interval t f d a :
  List.filter is_settle (schedule {| due := t; task := Interval f d |} a)
  = List.filter is_settle a.
Proof.
  induction a as [|q a IH]; simpl; [reflexivity|].
  destruct (t <? due q); simpl; [reflexivity|].
  now rewrite IH.
Qed.

(** ** One probe *)

Lemma pingServer_suspends c :
  pingServer c = AwaitFetch (ping_request c) (continuation (pingServer c)).
Proof. reflexivity. Qed.

Lemma exec_pingServer E c s :
  exec E (pingServer c) s
  = let id := length (requests s) in
    with_agenda
      (schedule {| due := clock s + Z.of_N (snd (network E id));
                   task := Settle id (continuation (pingServer c) (fst (network E id))) |}
                (agenda s))
      (sent (ping_request c) s).
Proof.
  rewrite pingServer_suspends at 1. simpl.
  now destruct (network E (length (requests s))).
Qed.

Lemma exec_continuation E c result s :
  exec E (continuation (pingServer c) result) s
  = written (outcome_entry (started E + clock s) result) s.
Proof.
  destruct result as [r|e]; simpl.
  - unfold outcome_entry. destruct (ok r); reflexivity.
  - reflexivity.
Qed.

(** ** The invariant of the event loop *)

Lemma calls_snoc (l : list Z) :
  l = map (fun k => Z.of_nat k * 600000) (seq 0 (length l)) ->
  let l' := l ++ [Z.of_nat (length l) * 600000] in
  l' = map (fun k => Z.of_nat k * 600000) (seq 0 (length l')).
Proof.
  intros H l'. subst l'. rewrite length_app. simpl.
  rewrite Nat.add_1_r, seq_S, map_app. simpl. now rewrite <- H.
Qed.

Lemma PING_INTERVAL_init env : PING_INTERVAL (module_init env) = 600000.
Proof. reflexivity. Qed.

Lemma timer_delay_PING_INTERVAL : timer_delay 600000 = 600000.
Proof. reflexivity. Qed.

Arguments continuation : simpl never.
Arguments pingServer : simpl never.
Arguments schedule : simpl never.
Arguments timer_delay : simpl never.
Arguments module_init : simpl never.

Lemma main_inv E : Inv E (main E).
Proof.
  unfold main, call, setInterval. simpl body.
  rewrite exec_pingServer, PING_INTERVAL_init, timer_delay_PING_INTERVAL. simpl.
  split; simpl; try easy.
  - rewrite timers_schedule_settle by reflexivity.
    now rewrite timers_schedule_interval.
  - apply Forall_schedule; [reflexivity|].
    apply Forall_schedule; [exact I | constructor].
  - exists []. split; [reflexivity|]. unfold in_flight. simpl.
    rewrite filter_schedule_settle by reflexivity.
    now rewrite filter_schedule_interval.
Qed.

Lemma step_inv E s : Inv E s -> Inv E (step E s).
Proof.
  intros [Hc Hu Hne Hcalls Hreq Htm Hw (rest & Hout & Hcount)].
  unfold step. rewrite Hu.
  destruct (agenda s) as [|[t [f d|id k]] a] eqn:Ha; [discriminate| |].
  - (* the timer fires *)
    simpl in Htm. destruct f. injection Htm as -> -> Htm.
    inversion Hw as [|? ? _ Hw']; subst.
    unfold call. cbn [task due body]. rewrite exec_pingServer.
    split; simpl; try easy.
    + now destruct (calls s).
    + now apply calls_snoc.
    + rewrite map_app. simpl. now rewrite <- Hreq.
    + rewrite timers_schedule_settle by reflexivity.
      rewrite timers_schedule_interval by assumption.
      rewrite length_app. simpl. do 3 f_equal. lia.
    + apply Forall_schedule; [|apply Forall_schedule; [exact I | assumption]].
      unfold waiting. simpl. now rewrite Hc.
    + exists rest. split; [assumption|]. unfold in_flight in *. simpl.
      rewrite filter_schedule_settle by reflexivity.
      rewrite filter_schedule_interval. rewrite Ha in Hcount. simpl in Hcount.
      rewrite length_app. simpl. lia.
  - (* a request settles *)
    simpl in Htm.
    inversion Hw as [|? ? Hk Hw']; subst.
    unfold waiting in Hk. simpl in Hk. subst k.
    cbn [task due]. rewrite exec_continuation.
    split; simpl; try easy.
    exists (rest ++ [outcome_entry (started E + t) (fst (network E id))]).
    split.
    + rewrite Hout. reflexivity.
    + unfold in_flight in *. simpl. rewrite Ha in Hcount. simpl in Hcount.
      rewrite length_app. simpl. lia.
Qed.

Lemma run_inv E n : Inv E (run E n).
Proof.
  induction n as [|n IH]; simpl; [apply main_inv | now apply step_inv].
Qed.

(** ** The loop never stops calling *)

Lemma run_turns E n k : run E (k + n) = turns E k (run E n).
Proof.
  induction k as [|k IH]; simpl; [reflexivity | now rewrite IH].
Qed.

Lemma turns_step E k s : turns E (S k) s = turns E k (step E s).
Proof. unfold turns. now rewrite Nat.iter_succ_r. Qed.

Lemma next_call E s :
  Inv E s -> exists k, length (calls (turns E k s)) = S (length (calls s)).
Proof.
  remember (length (agenda s)) as m eqn:Hm.
  revert s Hm. induction m as [|m IH]; intros s Hm HI.
  - destruct (agenda s) eqn:Ha; [|discriminate].
    pose proof (inv_timers _ _ HI) as Htm. rewrite Ha in Htm. discriminate.
  - pose proof (step_inv _ _ HI) as HI'.
    destruct (agenda s) as [|[t [f d|id k]] a] eqn:Ha; [discriminate| |].
    + exists 1%nat. simpl. unfold step.
      rewrite (inv_uncaught _ _ HI), Ha. cbn [task due]. destruct f.
      unfold call. cbn [body]. rewrite exec_pingServer. simpl.
      rewrite length_app. simpl. lia.
    + assert (Hs : calls (step E s) = calls s /\ agenda (step E s) = a).
      { unfold step. rewrite (inv_uncaught _ _ HI), Ha. cbn [task due].
        pose proof (inv_waiting _ _ HI) as Hw. rewrite Ha in Hw.
        inversion Hw as [|? ? Hk _]; subst. unfold waiting in Hk. simpl in Hk.
        subst k. rewrite exec_continuation. now split. }
      destruct Hs as [Hcs Hag].
      destruct (IH (step E s)) as [k' Hk']; [|assumption|].
      * rewrite Hag. simpl in Hm. lia.
      * exists (S k'). rewrite turns_step, Hk'. now rewrite Hcs.
Qed.

Lemma calls_main E : calls (main E) = [0].
Proof.
  unfold main, call, setInterval. cbn [body]. now rewrite exec_pingServer.
Qed.

Lemma reaches_call E N : exists n, length (calls (run E n)) = S N.
Proof.
  induction N as [|N [n Hn]].
  - exists 0%nat. simpl. now rewrite calls_main.
  - destruct (next_call E (run E n) (run_inv E n)) as [k Hk].
    exists (k + n)%nat. now rewrite run_turns, Hk, Hn.
Qed.

Lemma nth_call E n N :
  (N < length (calls (run E n)))%nat ->
  nth_error (calls (run E n)) N = Some (Z.of_nat N * 600000).
Proof.
  intros HN. rewrite (inv_calls _ _ (run_inv E n)).
  rewrite nth_error_map, nth_error_seq.
  destruct (Nat.ltb_spec N (length (calls (run E n)))); [reflexivity | lia].
Qed.

Lemma gaps_progression (d : Z) a n :
  gaps (map (fun k => Z.of_nat k * d) (seq a n)) = repeat d (n - 1).
Proof.
  revert a. induction n as [|n IH]; intros a; [reflexivity|].
  destruct n as [|n]; [reflexivity|].
  specialize (IH (S a)). cbn [seq map gaps] in *. rewrite IH.
  simpl. rewrite Nat.sub_0_r. f_equal. lia.
Qed.

(** ** Probes that settle within the interval do not overlap *)

Lemma schedule_nil p : schedule p [] = [p].
Proof. reflexivity. Qed.

Lemma schedule_before p q a : due p < due q -> schedule p (q :: a) = p :: q :: a.
Proof.
  intros H. unfold schedule. now apply Z.ltb_lt in H as ->.
Qed.

Section Serial.

Variable E : Environment.
Hypothesis quick : forall id, Z.of_N (snd (network E id)) < 600000.

Lemma main_serial : serial (main E).
Proof.
  right. unfold main, call, setInterval. cbn [body].
  rewrite exec_pingServer, PING_INTERVAL_init, timer_delay_PING_INTERVAL.
  cbn [agenda with_agenda sent calls called clock requests length].
  rewrite schedule_nil.
  eexists _, _, _. split; [|apply schedule_before]; simpl; apply (quick 0).
Qed.

Lemma step_serial s : Inv E s -> serial s -> serial (step E s).
Proof.
  intros HI [Ha | (t & id & k & Ht & Ha)]; unfold step;
    rewrite (inv_uncaught _ _ HI), Ha; cbn [task due].
  - right. unfold call. cbn [body]. rewrite exec_pingServer.
    cbn [agenda with_agenda sent calls called clock with_clock requests].
    rewrite schedule_nil, length_app. cbn [length].
    replace (Z.of_nat (length (calls s) + 1) * 600000)
      with (Z.of_nat (length (calls s)) * 600000 + 600000) by lia.
    eexists _, _, _. split; [|apply schedule_before]; simpl;
      specialize (quick (length (requests s))); lia.
  - left. pose proof (inv_waiting _ _ HI) as Hw. rewrite Ha in Hw.
    inversion Hw as [|? ? Hk _]; subst. unfold waiting in Hk. simpl in Hk.
    subst k. now rewrite exec_continuation.
Qed.

Lemma run_serial n : serial (run E n).
Proof.
  induction n as [|n IH]; simpl; [apply main_serial|].
  apply step_serial; [apply run_inv | assumption].
Qed.

Lemma serial_in_flight s : serial s -> (in_flight s <= 1)%nat.
Proof.
  unfold in_flight. intros [-> | (t & id & k & _ & ->)]; simpl; lia.
Qed.

End Serial.

(** ** The prober *)

Lemma append_assoc (a b c : string) : (a +:+ b) +:+ c = a +:+ (b +:+ c).
Proof.
  induction a as [|x a IH]; [reflexivity|].
  change (String x ((a +:+ b) +:+ c) = String x (a +:+ (b +:+ c))).
  now rewrite IH.
Qed.

Lemma format_two a b : format [a; b] = a +:+ " " +:+ b.
Proof. reflexivity. Qed.

Lemma output_count E n :
  (length (output (run E n)) + in_flight (run E n)
   = 2 + length (calls (run E n)))%nat.
Proof.
  destruct (inv_output _ _ (run_inv E n)) as (rest & -> & Hcount).
  rewrite length_app. simpl. lia.
Qed.

Lemma consts_run E n : consts (run E n) = module_init (process_env E).
Proof. exact (inv_consts _ _ (run_inv E n)). Qed.

(** C1: when the request of a probe settles, the event loop appends
    exactly one line to the output, chosen by the way it settled: a
    success line on stdout for a status from 200 to 299, a warning line on
    stdout carrying the status code for any other status, an error line on
    stderr carrying the failure message for a rejected request; each line
    carries the ISO timestamp of the moment it is written. Over the whole
    run the lines written are the two start-up lines and one per settled
    probe. *)
Theorem probe_logs_one_classified_entry E n t id k a :
  agenda (run E n) = {| due := t; task := Settle id k |} :: a ->
  let now := toISOString (started E + t) in
  output (run E (S n))
  = output (run E n)
    ++ [ match fst (network E id) with
         | Fulfilled r =>
             if (200 <=? status r) && (status r <=? 299)
             then {| stream := Stdout;
                     text := "✅ [" +:+ now +:+ "] Server is alive" |}
             else {| stream := Stdout;
                     text := "⚠️ [" +:+ now +:+ "] Server responded with "
                               +:+ show (status r) |}
         | Rejected e =>
             {| stream := Stderr;
                text := "❌ [" +:+ now +:+ "] Failed to ping server: "
                          +:+ message e |}
         end ]
  /\ (length (output (run E (S n))) + in_flight (run E (S n))
      = 2 + length (calls (run E (S n))))%nat.
Proof.
  intros Ha now. split; [|apply output_count].
  pose proof (run_inv E n) as HI.
  pose proof (inv_waiting _ _ HI) as Hw. rewrite Ha in Hw.
  inversion Hw as [|? ? Hk _]; subst. unfold waiting in Hk. simpl in Hk. subst k.
  cbn [run]. unfold step. rewrite (inv_uncaught _ _ HI), Ha. cbn [task due].
  rewrite exec_continuation. cbn [output written with_agenda with_clock clock].
  do 2 f_equal. unfold outcome_entry, ok.
  destruct (fst (network E id)) as [r|e]; [reflexivity|].
  f_equal. now rewrite format_two, !append_assoc.
Qed.

(** C2: whatever the network answers, no exception ever leaves a probe:
    running the rest of [pingServer] on any settlement leaves the process
    without an uncaught error, no reachable state of the process has one,
    and the interval timer is still armed. *)
Theorem no_failure_leaves_the_probe E n :
  uncaught (run E n) = None
  /\ (forall result s,
        uncaught (exec E (continuation (pingServer (consts (run E n))) result) s)
        = uncaught s)
  /\ timers (agenda (run E n))
     = [(Z.of_nat (length (calls (run E n))) * 600000, pingServer_fn, 600000)].
Proof.
  pose proof (run_inv E n) as HI. split; [apply (inv_uncaught _ _ HI)|].
  split; [|apply (inv_timers _ _ HI)].
  intros result s. now rewrite exec_continuation.
Qed.

(** C3: the first call of [pingServer] happens at offset 0 and any two
    consecutive calls are exactly [PING_INTERVAL] apart, in every state
    the process reaches and for every behaviour of the network; and the
    loop never stops: for every [N] the process reaches the call number
    [N], at [N] times the interval. *)
Theorem probes_start_on_a_fixed_cadence E :
  (forall n,
     hd_error (calls (run E n)) = Some 0
     /\ gaps (calls (run E n))
        = repeat (PING_INTERVAL (consts (run E n))) (length (calls (run E n)) - 1))
  /\ (forall N, exists n,
        nth_error (calls (run E n)) N = Some (Z.of_nat N * 600000)).
Proof.
  split.
  - intros n. pose proof (run_inv E n) as HI.
    rewrite consts_run, PING_INTERVAL_init. split.
    + pose proof (inv_called _ _ HI) as Hne.
      rewrite (inv_calls _ _ HI).
      destruct (calls (run E n)); [congruence | reflexivity].
    + rewrite (inv_calls _ _ HI) at 1. apply gaps_progression.
  - intros N. destruct (reaches_call E N) as [n Hn].
    exists n. apply nth_call. lia.
Qed.

(** C4, as the script behaves: while every request settles in less than
    the interval (600000 ms), at most one probe is in flight in every
    state the process reaches. *)
Theorem at_most_one_probe_in_flight_when_quick E n :
  (forall id, Z.of_N (snd (network E id)) < 600000) ->
  (in_flight (run E n) <= 1)%nat.
Proof.
  intros Hquick. apply serial_in_flight. now apply run_serial.
Qed.

(** C5: [PING_INTERVAL] is 600000 ms, that is ten minutes; [setInterval]
    keeps that delay, and in every state the process reaches the one timer
    of the agenda calls [pingServer] with that delay, due at the next
    multiple of it. *)
Theorem probe_interval_is_ten_minutes E n :
  PING_INTERVAL (consts (run E n)) = 600000
  /\ 600000 = 10 * (60 * 1000)
  /\ timer_delay (PING_INTERVAL (consts (run E n))) = 600000
  /\ timers (agenda (run E n))
     = [(Z.of_nat (length (calls (run E n))) * 600000, pingServer_fn, 600000)].
Proof.
  rewrite consts_run, PING_INTERVAL_init.
  repeat split. apply (inv_timers _ _ (run_inv E n)).
Qed.

(** C6: in every state the process reaches, the requests sent are one per
    call of [pingServer], sent at the instant of the call: a GET to the
    base URL followed by [/health], with the header
    [User-Agent: KeepAlive-Bot/1.0]; the rest of the body, once the
    request has settled, sends nothing more. *)
Theorem every_probe_sends_one_health_request E n :
  requests (run E n)
  = map (fun t =>
           (t, {| url := RAILWAY_URL (consts (run E n)) +:+ "/health";
                  init := {| method := "GET";
                             headers := [("User-Agent", "KeepAlive-Bot/1.0")] |} |}))
        (calls (run E n))
  /\ (forall result s,
        requests (exec E (continuation (pingServer (consts (run E n))) result) s)
        = requests s).
Proof.
  split.
  - rewrite (inv_requests _ _ (run_inv E n)). unfold ping_request.
    now rewrite consts_run.
  - intros result s. now rewrite exec_continuation.
Qed.

(** C7: the base URL the process works with is the one computed from the
    environment when the module is loaded, in every state it reaches; it
    is the placeholder [https://your-app.railway.app] when [RAILWAY_URL]
    is not set, and the value of the variable when that is set and not
    empty. *)
Theorem base_url_is_resolved_once_at_startup E n :
  RAILWAY_URL (consts (run E n)) = RAILWAY_URL (module_init (process_env E))
  /\ (process_env E !! "RAILWAY_URL" = None ->
      RAILWAY_URL (consts (run E n)) = "https://your-app.railway.app")
  /\ (forall u, process_env E !! "RAILWAY_URL" = Some u -> u <> "" ->
      RAILWAY_URL (consts (run E n)) = u).
Proof.
  rewrite consts_run. unfold module_init. cbn [RAILWAY_URL].
  split; [reflexivity|]. split.
  - now intros ->.
  - intros u -> Hu. now destruct u.
Qed.

(** C8: the constants of the module are those computed at start-up in
    every state the process reaches, and what each tick does with them is
    the same: every request sent so far is the request built from the
    start-up constants, every pending continuation is the rest of
    [pingServer] over them, and the timer runs with their interval. *)
Theorem configuration_never_changes E n :
  consts (run E n) = consts (run E 0)
  /\ consts (run E 0)
     = {| RAILWAY_URL := js_or (process_env E !! "RAILWAY_URL")
                               "https://your-app.railway.app";
          PING_INTERVAL := 600000;
          HEALTH_ENDPOINT := "/health" |}
  /\ map snd (requests (run E n))
     = repeat (ping_request (consts (run E 0))) (length (calls (run E n)))
  /\ Forall (waiting E) (agenda (run E n))
  /\ map snd (timers (agenda (run E n))) = [PING_INTERVAL (consts (run E 0))].
Proof.
  pose proof (run_inv E n) as HI. rewrite !consts_run.
  split; [reflexivity|]. split; [reflexivity|]. split; [|split].
  - rewrite (inv_requests _ _ HI), consts_run.
    induction (calls (run E n)) as [|t l IH]; simpl; [reflexivity | now rewrite IH].
  - apply (inv_waiting _ _ HI).
  - now rewrite (inv_timers _ _ HI).
Qed.

(** C9: with [RAILWAY_URL] set to the empty string the process works with
    the placeholder URL, whatever else the environment holds. *)
Theorem empty_RAILWAY_URL_falls_back_to_default env t0 net n :
  let E := {| process_env := <["RAILWAY_URL" := ""]> env;
              started := t0; network := net |} in
  RAILWAY_URL (module_init (process_env E)) = "https://your-app.railway.app"
  /\ RAILWAY_URL (consts (run E n)) = "https://your-app.railway.app".
Proof.
  intros E. rewrite consts_run. unfold module_init. cbn [RAILWAY_URL process_env E].
  now rewrite lookup_insert_eq.
Qed.

(** C10: when the top level of the script has run, the output is exactly
    two lines on stdout, the first with the resolved base URL and the
    second with the interval in minutes (10, the interval being 10 times
    60000 ms), and the first probe is still in flight; these two lines stay
    the first two of the output, and every later line belongs to a settled
    probe. *)
Theorem startup_writes_two_banner_lines E :
  output (run E 0)
  = [ {| stream := Stdout;
         text := "🚀 Starting keep-alive for " +:+ RAILWAY_URL (consts (run E 0)) |};
      {| stream := Stdout; text := "📡 Pinging every 10 minutes" |} ]
  /\ PING_INTERVAL (consts (run E 0)) = 10 * 60000
  /\ in_flight (run E 0) = 1%nat
  /\ (forall n,
        firstn 2 (output (run E n)) = output (run E 0)
        /\ (length (output (run E n)) + in_flight (run E n)
            = 2 + length (calls (run E n)))%nat).
Proof.
  assert (H0 : output (run E 0) = banners (consts (run E 0))
               /\ in_flight (run E 0) = 1%nat).
  { cbn [run]. unfold main, call, setInterval, in_flight. cbn [body].
    rewrite exec_pingServer. cbn [agenda with_agenda sent output consts called].
    rewrite filter_schedule_settle by reflexivity.
    rewrite filter_schedule_interval. now split. }
  destruct H0 as [H0 H1]. split; [exact H0|].
  split; [now rewrite consts_run|]. split; [exact H1|].
  intros n. split; [|apply output_count].
  destruct (inv_output _ _ (run_inv E n)) as (rest & -> & _).
  now rewrite H0, !consts_run.
Qed.

(** ** The properties at the sample environments *)

Lemma probe_logs_one_classified_entry_witness :
  output (run degraded 1)
  = output (run degraded 0)
    ++ [ {| stream := Stdout;
            text := "⚠️ [2026-11-03T07:00:00.050Z] Server responded with 503" |} ].
Proof.
  exact (proj1 (probe_logs_one_classified_entry degraded 0 50 0 _ _ eq_refl)).
Defined.

Lemma at_most_one_probe_in_flight_when_quick_witness :
  (in_flight (run healthy 7) <= 1)%nat.
Proof.
  apply (at_most_one_probe_in_flight_when_quick healthy 7).
  intros id. reflexivity.
Defined.

(** With a server that takes 700 s to answer, the timer fires at 600 s and
    the second request is sent while the first is still pending. *)
Lemma probes_overlap_when_sluggish :
  in_flight (run sluggish 1) = 2%nat
  /\ ~ (forall E n, (in_flight (run E n) <= 1)%nat).
Proof.
  assert (H : in_flight (run sluggish 1) = 2%nat) by (vm_compute; reflexivity).
  split; [exact H|].
  intros Hall. specialize (Hall sluggish 1%nat). rewrite H in Hall. lia.
Qed.

Lemma base_url_is_resolved_once_at_startup_witness :
  RAILWAY_URL (consts (run healthy 3)) = "https://your-app.railway.app"
  /\ RAILWAY_URL (consts (run degraded 3)) = "https://example.test".
Proof.
  split.
  - destruct (base_url_is_resolved_once_at_startup healthy 3) as (_ & Hunset & _).
    apply Hunset. reflexivity.
  - destruct (base_url_is_resolved_once_at_startup degraded 3) as (_ & _ & Hset).
    apply Hset; [reflexivity | discriminate].
Defined.

(** ** The run time at work *)

(** The [catch] is what keeps the process alive: the same request awaited
    without it ends the process when the request is rejected. *)
Lemma rejection_without_catch_ends_the_process E c e s :
  let unguarded := _ ← fetch (RAILWAY_URL c +:+ HEALTH_ENDPOINT c)
                         {| method := "GET"; headers := [] |}; Ret tt in
  uncaught (exec E (continuation unguarded (Rejected e)) s) = Some e.
Proof. reflexivity. Qed.

(** Base URL [https://example.test], a server that answers after 50 ms:
    the first request leaves at 0, its line is stamped 50 ms after the
    start, and the second request leaves at 600000 ms. *)
Example two_ticks_against_example_test :
  map fst (requests (run degraded 2)) = [0; 600000]
  /\ map (fun r => url (snd r)) (requests (run degraded 2))
     = ["https://example.test/health"; "https://example.test/health"]
  /\ map text (output (run degraded 2))
     = ["🚀 Starting keep-alive for https://example.test";
        "📡 Pinging every 10 minutes";
        "⚠️ [2026-11-03T07:00:00.050Z] Server responded with 503"]
  /\ in_flight (run degraded 2) = 1%nat.
Proof. vm_compute. repeat split. Qed.

(** ** The ledger of the log *)

Lemma pending_ids_cons p a :
  pending_ids (p :: a) = pending_ids [p] ++ pending_ids a.
Proof. unfold pending_ids. simpl. now rewrite app_nil_r. Qed.

Lemma pending_ids_schedule p a :
  Permutation (pending_ids (schedule p a)) (pending_ids (p :: a)).
Proof.
  induction a as [|q a IH]; [reflexivity|].
  unfold schedule; fold schedule. destruct (due p <? due q); [reflexivity|].
  rewrite (pending_ids_cons q), IH, (pending_ids_cons p (q :: a)).
  rewrite (pending_ids_cons p a), (pending_ids_cons q a).
  rewrite !app_assoc. apply Permutation_app_tail, Permutation_app_comm.
Qed.

Lemma Forall_schedule_inv (P : Pending -> Prop) p a :
  Forall P (schedule p a) -> Forall P a.
Proof.
  induction a as [|q a IH]; [constructor|].
  unfold schedule; fold schedule. destruct (due p <? due q); intros H.
  - now inversion H.
  - inversion H; subst. constructor; auto.
Qed.

Lemma schedule_sorted p a :
  StronglySorted due_le a -> StronglySorted due_le (schedule p a).
Proof.
  induction 1 as [|q a Hs IH Hq]; [repeat constructor|].
  unfold schedule; fold schedule. destruct (Z.ltb_spec (due p) (due q)).
  - constructor; [now constructor|]. constructor; [unfold due_le; lia|].
    eapply Forall_impl; [exact Hq|]. unfold due_le. intros; simpl in *. lia.
  - constructor; [assumption|]. apply Forall_schedule; [exact H | assumption].
Qed.

Lemma length_requests E s : Inv E s -> length (requests s) = length (calls s).
Proof. intros HI. now rewrite (inv_requests _ _ HI), length_map. Qed.

Lemma sorted_snoc (l : list Z) x :
  StronglySorted Z.le l -> Forall (fun y => y <= x) l ->
  StronglySorted Z.le (l ++ [x]).
Proof.
  induction 1 as [|y l Hs IH Hy]; intros Hx; simpl; [repeat constructor|].
  inversion Hx; subst. constructor; [now apply IH|].
  apply Forall_app. split; [assumption | now repeat constructor].
Qed.

Lemma main_ledger E : Ledger E (main E) [].
Proof.
  unfold main, call, setInterval. cbn [body].
  rewrite exec_pingServer, PING_INTERVAL_init, timer_delay_PING_INTERVAL.
  cbn [agenda with_agenda sent calls called clock requests output consts
       length exec console_log written].
  split; cbn [agenda with_agenda sent calls called clock requests output consts
              length map].
  - now rewrite app_nil_r.
  - rewrite pending_ids_schedule. reflexivity.
  - apply Forall_schedule; [|apply Forall_schedule; [exact I | constructor]].
    unfold due_when_settled, settles_at. simpl. lia.
  - do 2 apply schedule_sorted. constructor.
  - apply Forall_schedule; [|apply Forall_schedule; [|constructor]]; simpl; lia.
  - constructor.
  - constructor.
Qed.

Lemma step_ledger E s ids :
  Inv E s -> Ledger E s ids -> exists ids', Ledger E (step E s) ids'.
Proof.
  intros HI [Hout Hids Hdue Hsort Hclock Hpast Hchron].
  pose proof (length_requests _ _ HI) as Hlen.
  pose proof (inv_timers _ _ HI) as Htm.
  pose proof (inv_waiting _ _ HI) as Hw.
  unfold step. rewrite (inv_uncaught _ _ HI).
  destruct (agenda s) as [|[t [f d|id k]] a] eqn:Ha; [discriminate| |].
  - (* the timer fires: one more probe is pending *)
    simpl in Htm. destruct f. injection Htm as -> -> Htm.
    inversion Hsort as [|? ? Hsort' Hhd]; subst.
    inversion Hclock as [|? ? Hnow Hclock']; subst.
    inversion Hdue as [|? ? _ Hdue']; subst. simpl in Hnow.
    exists ids. unfold call. cbn [task due body]. rewrite exec_pingServer.
    split; cbn [agenda with_agenda with_clock sent calls called clock requests
                output consts].
    + assumption.
    + rewrite pending_ids_schedule, pending_ids_cons, pending_ids_schedule.
      rewrite pending_ids_cons. simpl pending_ids at 1 2.
      rewrite pending_ids_cons in Hids. simpl pending_ids at 1 in Hids.
      simpl in Hids. rewrite Hlen, length_app. simpl.
      rewrite Nat.add_1_r, seq_S. simpl.
      rewrite <- Hids, <- Permutation_middle. apply Permutation_cons_append.
    + apply Forall_schedule; [|apply Forall_schedule; [exact I | assumption]].
      unfold due_when_settled, settles_at. simpl. now rewrite Hlen.
    + do 2 apply schedule_sorted. assumption.
    + apply Forall_schedule; [simpl; lia|].
      apply Forall_schedule; [simpl; lia|].
      eapply Forall_impl; [exact Hhd|]. unfold due_le. simpl. auto.
    + eapply Forall_impl; [exact Hpast|]. simpl. intros; lia.
    + assumption.
  - (* a request settles: its probe writes its line *)
    inversion Hw as [|? ? Hk _]; subst. unfold waiting in Hk. simpl in Hk. subst k.
    inversion Hsort as [|? ? Hsort' Hhd]; subst.
    inversion Hclock as [|? ? Hnow Hclock']; subst.
    inversion Hdue as [|? ? Hid Hdue']; subst.
    unfold due_when_settled in Hid. simpl in Hid, Hnow. subst t.
    exists (ids ++ [id]). cbn [task due]. rewrite exec_continuation.
    split; cbn [agenda with_agenda with_clock written calls clock requests
                output consts].
    + rewrite Hout, map_app, app_assoc. reflexivity.
    + rewrite pending_ids_cons in Hids. simpl pending_ids at 1 in Hids.
      now rewrite <- app_assoc.
    + assumption.
    + assumption.
    + eapply Forall_impl; [exact Hhd|]. unfold due_le. simpl. auto.
    + apply Forall_app. split; [|repeat constructor; lia].
      eapply Forall_impl; [exact Hpast|]. simpl. intros; lia.
    + rewrite map_app. apply sorted_snoc; [assumption|].
      apply Forall_map. eapply Forall_impl; [exact Hpast|]. simpl. intros; lia.
Qed.

Lemma run_ledger E n : exists ids, Ledger E (run E n) ids.
Proof.
  induction n as [|n [ids IH]]; simpl.
  - exists []. apply main_ledger.
  - eapply step_ledger; [apply run_inv | exact IH].
Qed.

Lemma clock_step E s :
  Inv E s -> exists p a, agenda s = p :: a /\ clock (step E s) = due p.
Proof.
  intros HI. pose proof (inv_timers _ _ HI) as Htm.
  pose proof (inv_waiting _ _ HI) as Hw.
  unfold step. rewrite (inv_uncaught _ _ HI).
  destruct (agenda s) as [|[t [f d|id k]] a] eqn:Ha; [discriminate| |];
    eexists _, _; (split; [reflexivity|]); cbn [task due].
  - destruct f. unfold call. cbn [body]. now rewrite exec_pingServer.
  - inversion Hw as [|? ? Hk _]; subst. unfold waiting in Hk. simpl in Hk. subst k.
    now rewrite exec_continuation.
Qed.

Lemma stream_line_of E id r :
  fst (network E id) = Fulfilled r -> stream (line_of E id) = Stdout.
Proof.
  intros H. unfold line_of, outcome_entry. rewrite H. now destruct (ok r).
Qed.

(** ** Requests slower than the loop pile up *)

Lemma timer_in_agenda a t f d :
  timers a = [(t, f, d)] -> In {| due := t; task := Interval f d |} a.
Proof.
  induction a as [|[t' [f' d'|id k]] a IH]; simpl; [discriminate| |].
  - intros H. destruct f, f'. injection H as -> -> _. now left.
  - intros H. right. now apply IH.
Qed.

Section Backlog.

Variable E : Environment.
Variable B : nat.
Hypothesis stalled : forall id, Z.of_nat B * 600000 < Z.of_N (snd (network E id)).

Lemma main_backlog : backlog B 0 (main E).
Proof.
  unfold backlog, in_flight. rewrite calls_main.
  unfold main, call, setInterval. cbn [body].
  rewrite exec_pingServer, PING_INTERVAL_init, timer_delay_PING_INTERVAL.
  cbn [agenda with_agenda sent calls called clock requests length].
  rewrite filter_schedule_settle by reflexivity.
  rewrite filter_schedule_interval. repeat split.
  apply Forall_schedule; [|apply Forall_schedule; [discriminate | constructor]].
  intros _. simpl. specialize (stalled 0%nat). lia.
Qed.

Lemma step_backlog k s ids :
  Inv E s -> Ledger E s ids -> (k < B)%nat ->
  backlog B k s -> backlog B (S k) (step E s).
Proof.
  intros HI HL Hk (Hcalls & Hfl & Hlate).
  pose proof (inv_timers _ _ HI) as Htm. rewrite Hcalls in Htm.
  pose proof (timer_in_agenda _ _ _ _ Htm) as Hin.
  pose proof (led_sorted _ _ _ HL) as Hsort.
  unfold backlog, in_flight in *. unfold step. rewrite (inv_uncaught _ _ HI).
  destruct (agenda s) as [|[t [f d|id c]] a] eqn:Ha; [discriminate| |].
  - simpl in Htm. destruct f. injection Htm as -> -> Htm.
    inversion Hlate as [|? ? _ Hlate']; subst.
    unfold call. cbn [task due body]. rewrite exec_pingServer.
    cbn [agenda with_agenda with_clock sent calls called clock requests].
    rewrite length_app, Hcalls. cbn [length].
    rewrite filter_schedule_settle by reflexivity.
    rewrite filter_schedule_interval. simpl in Hfl.
    split; [lia|]. split; [lia|].
    apply Forall_schedule; [|apply Forall_schedule; [discriminate | assumption]].
    intros _. simpl. specialize (stalled (length (requests s))). lia.
  - exfalso. inversion Hlate as [|? ? Hhd _]; subst.
    specialize (Hhd eq_refl). simpl in Hhd.
    destruct Hin as [Hin | Hin]; [discriminate|].
    inversion Hsort as [|? ? _ Hle]; subst.
    rewrite List.Forall_forall in Hle. apply Hle in Hin.
    unfold due_le in Hin. simpl in Hin. lia.
Qed.

Lemma run_backlog k : (k <= B)%nat -> backlog B k (run E k).
Proof.
  induction k as [|k IH]; intros Hk; [apply main_backlog|].
  destruct (run_ledger E k) as [ids HL]. simpl.
  eapply step_backlog; [apply run_inv | exact HL | lia | apply IH; lia].
Qed.

End Backlog.

(** ** Requests quicker than the loop are logged in order *)

Section InOrder.

Variable E : Environment.
Hypothesis prompt : forall id, Z.of_N (snd (network E id)) < 600000.

Lemma even_turns k :
  agenda (run E (2 * k))
  = [ {| due := settles_at E k;
         task := Settle k (continuation (pingServer (module_init (process_env E)))
                                        (fst (network E k))) |};
      {| due := Z.of_nat (S k) * 600000; task := Interval pingServer_fn 600000 |} ]
  /\ length (calls (run E (2 * k))) = S k
  /\ output (run E (2 * k))
     = banners (module_init (process_env E)) ++ map (line_of E) (seq 0 k).
Proof.
  induction k as [|k (Ha & Hc & Ho)].
  - change (2 * 0)%nat with 0%nat. cbn [run].
    unfold main, call, setInterval. cbn [body].
    rewrite exec_pingServer, PING_INTERVAL_init, timer_delay_PING_INTERVAL.
    cbn [agenda with_agenda sent calls called clock requests output consts
         length exec console_log written].
    rewrite schedule_nil, schedule_before by (simpl; apply (prompt 0)).
    repeat split.
  - replace (2 * S k)%nat with (S (S (2 * k))) by lia.
    pose proof (run_inv E (2 * k)) as HI.
    pose proof (length_requests _ _ HI) as Hr.
    pose proof (inv_consts _ _ HI) as Hk.
    remember (run E (2 * k)) as s eqn:Hs.
    cbn [run]. rewrite <- Hs.
    assert (H1 : step E s
                 = written (line_of E k)
                     (with_agenda
                        [{| due := Z.of_nat (S k) * 600000;
                            task := Interval pingServer_fn 600000 |}]
                        (with_clock (settles_at E k) s))).
    { unfold step. rewrite (inv_uncaught _ _ HI), Ha. cbn [task due].
      now rewrite exec_continuation. }
    rewrite H1. unfold step.
    cbn [uncaught agenda written with_agenda with_clock].
    rewrite (inv_uncaught _ _ HI). cbn [task due]. unfold call. cbn [body].
    rewrite exec_pingServer.
    cbn [agenda with_agenda with_clock sent calls called clock requests output
         consts written].
    rewrite Hr, Hc, Hk, schedule_nil.
    rewrite schedule_before
      by (simpl; specialize (prompt (S k)); lia).
    split; [|split].
    + unfold settles_at. do 3 f_equal. lia.
    + rewrite length_app, Hc. simpl. lia.
    + rewrite Ho, seq_S, map_app, app_assoc. reflexivity.
Qed.

Lemma odd_turns k :
  output (run E (S (2 * k)))
  = banners (module_init (process_env E)) ++ map (line_of E) (seq 0 (S k)).
Proof.
  destruct (even_turns k) as (Ha & _ & Ho).
  pose proof (run_inv E (2 * k)) as HI.
  cbn [run]. unfold step. rewrite (inv_uncaught _ _ HI), Ha. cbn [task due].
  rewrite exec_continuation.
  cbn [output written with_agenda with_clock clock].
  rewrite Ho, seq_S, map_app, app_assoc. reflexivity.
Qed.

End InOrder.

(** ** More about the prober *)

(** X1: in every state the process reaches, the output is the two
    start-up lines followed by the lines of some probes, each probe at most
    once, each line being the one for the way that probe's request settled
    and stamped with the instant it settled (start of the probe plus the
    latency of its request); the probes that have written their line and
    the probes still waiting for their request are exactly the probes
    started so far. *)
Theorem every_probe_is_logged_once_or_pending E n :
  exists ids,
    output (run E n) = banners (consts (run E n)) ++ map (line_of E) ids
    /\ NoDup ids
    /\ Permutation (ids ++ pending_ids (agenda (run E n)))
                   (seq 0 (length (calls (run E n)))).
Proof.
  destruct (run_ledger E n) as [ids HL]. exists ids.
  pose proof (led_ids _ _ _ HL) as Hp.
  split; [apply (led_output _ _ _ HL)|]. split; [|exact Hp].
  assert (Hnd : NoDup (ids ++ pending_ids (agenda (run E n)))).
  { rewrite Hp. apply NoDup_ListNoDup, List.seq_NoDup. }
  now apply NoDup_app in Hnd as (Hnd & _ & _).
Qed.

(** X2: while every request settles in less than the interval, the log is
    in probe order with no probe missing: after [n] turns of the event loop
    it is the two start-up lines followed by the lines of the probes 0, 1,
    ... up to (not including) [(n + 1) / 2]. *)
Theorem prompt_probes_are_logged_in_order E n :
  (forall id, Z.of_N (snd (network E id)) < 600000) ->
  output (run E n)
  = banners (consts (run E n)) ++ map (line_of E) (seq 0 (Nat.div2 (S n))).
Proof.
  intros Hprompt. rewrite consts_run.
  destruct (Nat.Even_or_Odd n) as [[k ->] | [k ->]].
  - rewrite Nat.div2_succ_double. now apply even_turns.
  - replace (S (2 * k + 1)) with (2 * S k)%nat by lia.
    rewrite Nat.div2_double, Nat.add_1_r. now apply odd_turns.
Qed.

(** X3: a server that always answers, with whatever status, never makes
    the process write to stderr: the warning for a status outside 200..299
    goes to stdout like the success line. *)
Theorem answered_probes_never_write_to_stderr E n :
  (forall id, exists r, fst (network E id) = Fulfilled r) ->
  Forall (fun e => stream e = Stdout) (output (run E n)).
Proof.
  intros Hans. destruct (run_ledger E n) as [ids HL].
  rewrite (led_output _ _ _ HL). apply Forall_app. split.
  - now repeat constructor.
  - apply Forall_map, Forall_forall. intros id _.
    destruct (Hans id) as [r Hr]. cbn. now apply (stream_line_of E id r).
Qed.

(** X4: nothing cancels a request or waits for it: when every request
    takes longer than [B] intervals, the process has [B + 1] requests in
    flight after [B] turns of the event loop. *)
Theorem slow_requests_pile_up E B :
  (forall id, Z.of_nat B * 600000 < Z.of_N (snd (network E id))) ->
  in_flight (run E B) = S B.
Proof.
  intros Hstalled.
  now destruct (run_backlog E B Hstalled B (Nat.le_refl B)) as (_ & H & _).
Qed.

(** X5: the clock of the process never goes back, and the lines of the
    probes are written in the order their requests settle, none before its
    request has settled: the stamps down the log never decrease. *)
Theorem log_is_in_order_of_settlement E n :
  clock (run E n) <= clock (run E (S n))
  /\ exists ids,
       output (run E n) = banners (consts (run E n)) ++ map (line_of E) ids
       /\ StronglySorted Z.le (map (settles_at E) ids)
       /\ Forall (fun id => settles_at E id <= clock (run E n)) ids.
Proof.
  destruct (run_ledger E n) as [ids HL]. split.
  - destruct (clock_step E (run E n) (run_inv E n)) as (p & a & Ha & Hc).
    cbn [run]. rewrite Hc.
    pose proof (led_clock _ _ _ HL) as Hclock. rewrite Ha in Hclock.
    now inversion Hclock.
  - exists ids. split; [apply (led_output _ _ _ HL)|].
    split; [apply (led_chron _ _ _ HL) | apply (led_past _ _ _ HL)].
Qed.

Lemma prompt_probes_are_logged_in_order_witness :
  map text (output (run healthy 3))
  = [ "🚀 Starting keep-alive for https://your-app.railway.app";
      "📡 Pinging every 10 minutes";
      "✅ [2026-11-03T07:00:00.050Z] Server is alive";
      "✅ [2026-11-03T07:10:00.050Z] Server is alive" ].
Proof.
  rewrite (prompt_probes_are_logged_in_order healthy 3); [reflexivity|].
  intros id. reflexivity.
Defined.

Lemma answered_probes_never_write_to_stderr_witness :
  Forall (fun e => stream e = Stdout) (output (run degraded 5)).
Proof.
  apply (answered_probes_never_write_to_stderr degraded 5).
  intros id. now exists {| status := 503 |}.
Defined.

Lemma slow_requests_pile_up_witness : in_flight (run sluggish 1) = 2%nat.
Proof.
  apply (slow_requests_pile_up sluggish 1). intros id. reflexivity.
Defined.

(** * The shell scripts *)

Module ShellFacts.

Import Shell.

Lemma perform_bind {A B : Type} (o : Oracle) (p : Sh A) (f : A -> Sh B) i :
  perform o (sh_bind p f) i
  = match perform o p i with
    | (tr, inl code) => (tr, inl code)
    | (tr, inr a) =>
        let r := perform o (f a) (i + length (commands tr)) in
        (tr ++ fst r, snd r)
    end.
Proof.
  revert i. induction p as [a|code|e t k IH|c k IH]; intros i; cbn [sh_bind perform].
  - rewrite Nat.add_0_r. now destruct (perform o (f a) i).
  - reflexivity.
  - rewrite IH. destruct (perform o k i) as [tr [code|a]]; [reflexivity|].
    cbn. reflexivity.
  - destruct (o i c) as [st out]. rewrite IH.
    destruct (perform o (k st out) (S i)) as [tr [code|a]]; [reflexivity|].
    cbn. now rewrite Nat.add_succ_r.
Qed.

Lemma strip_newlines_fallback raw :
  strip_newlines (raw +:+ "000" +:+ newline) = raw +:+ "000".
Proof.
  induction raw as [|c raw IH]; [reflexivity|].
  change (strip_newlines (String c (raw +:+ "000" +:+ newline))
          = String c (raw +:+ "000")).
  cbn [strip_newlines]. rewrite IH. now destruct raw.
Qed.

(** ** The keep-alive workflow *)

Lemma perform_ping url (o : Oracle) :
  let answer := o 0%nat (Workflow.probe url) in
  let shown := o 1%nat (Workflow.model_info url) in
  let response :=
    strip_newlines
      (snd answer +:+ (if fst answer =? 0 then "" else "000" +:+ newline)) in
  perform o (Workflow.ping url) 0
  = ( [ Said false "🚀 Pinging Railway app to prevent sleep...";
        Ran (Workflow.probe url) (fst answer);
        Said false (if bool_decide (response = "200")
                    then "✅ App is alive (HTTP " +:+ response +:+ ")"
                    else "⚠️ App response: HTTP " +:+ response);
        Said false "🔥 Checking model warmup status...";
        Ran (Workflow.model_info url) (fst shown) ]
      ++ (if fst shown =? 0 then [] else [Said false "Model info not available"]),
      inr tt ).
Proof.
  unfold Workflow.ping. cbn.
  destruct (o 0%nat (Workflow.probe url)) as [st raw]. cbn.
  destruct (bool_decide _); cbn;
    destruct (o 1%nat (Workflow.model_info url)) as [st' shown]; cbn;
    now destruct (st' =? 0).
Qed.

Lemma append_empty_r (a : string) : a +:+ "" = a.
Proof.
  induction a as [|c a IH]; [reflexivity|].
  change (String c (a +:+ "") = String c a). now rewrite IH.
Qed.

Lemma fallback_is_not_200 raw : raw +:+ "000" <> "200".
Proof.
  destruct raw as [|c [|c' raw]]; try discriminate.
  intros H. injection H as _ _ H. now destruct raw as [|? [|]].
Qed.

(** X6: the verdict of the workflow step, the third thing it does after
    its first line and the probe, depends on the exit status of [curl] and
    on what [curl] printed: the alive line only when [curl] succeeded and
    printed exactly 200 (trailing newlines apart), the warning with what
    [curl] printed for any other output of a successful [curl], so also for
    204 or 301, and, when [curl] failed, the warning with what [curl]
    printed followed by 000, the fallback being appended to the output, not
    put in its place. *)
Theorem ping_verdict url (o : Oracle) :
  let st := fst (o 0%nat (Workflow.probe url)) in
  let raw := snd (o 0%nat (Workflow.probe url)) in
  nth_error (fst (perform o (Workflow.ping url) 0)) 2
  = Some (Said false
            (if st =? 0
             then if bool_decide (strip_newlines raw = "200")
                  then "✅ App is alive (HTTP 200)"
                  else "⚠️ App response: HTTP " +:+ strip_newlines raw
             else "⚠️ App response: HTTP " +:+ raw +:+ "000")).
Proof.
  intros st raw. rewrite perform_ping. cbn [fst nth_error app]. fold st raw.
  do 2 f_equal. destruct (st =? 0).
  - rewrite append_empty_r. destruct (bool_decide_reflect (strip_newlines raw = "200")) as [->|]; reflexivity.
  - rewrite strip_newlines_fallback.
    rewrite bool_decide_false by apply fallback_is_not_200. reflexivity.
Qed.

(** X7: the workflow step never fails: whatever the two [curl] commands
    answer, both are run, in this order, and the step ends with status 0,
    so the job stays green while the application is down. *)
Theorem ping_step_always_succeeds url (o : Oracle) :
  status_of (snd (perform o (Workflow.ping url) 0)) = 0
  /\ commands (fst (perform o (Workflow.ping url) 0))
     = [ (Workflow.probe url, fst (o 0%nat (Workflow.probe url)));
         (Workflow.model_info url, fst (o 1%nat (Workflow.model_info url))) ].
Proof.
  rewrite perform_ping. cbn [fst snd status_of]. split; [reflexivity|].
  now destruct (fst (o 1%nat (Workflow.model_info url)) =? 0).
Qed.

(** ** deploy.sh *)

Lemma commands_app tr tr' : commands (tr ++ tr') = commands tr ++ commands tr'.
Proof. unfold commands. apply flat_map_app. Qed.

(** The commands run and the way the script ends, constructor by
    constructor. *)
Section Perform.

Context {A : Type} (o : Oracle).

Lemma commands_Done (a : A) i : commands (fst (perform o (Done a) i)) = [].
Proof. reflexivity. Qed.

Lemma commands_Exit code i : commands (fst (perform o (@Exit A code) i)) = [].
Proof. reflexivity. Qed.

Lemma commands_Say e t (k : Sh A) i :
  commands (fst (perform o (Say e t k) i)) = commands (fst (perform o k i)).
Proof. cbn [perform]. now destruct (perform o k i). Qed.

Lemma commands_Run c (k : Z -> string -> Sh A) i :
  commands (fst (perform o (Run c k) i))
  = (c, fst (o i c))
    :: commands (fst (perform o (k (fst (o i c)) (snd (o i c))) (S i))).
Proof.
  cbn [perform]. destruct (o i c) as [st out]. cbn [fst snd].
  now destruct (perform o (k st out) (S i)).
Qed.

Lemma end_Done (a : A) i : snd (perform o (Done a) i) = inr a.
Proof. reflexivity. Qed.

Lemma end_Exit code i : snd (perform o (@Exit A code) i) = inl code.
Proof. reflexivity. Qed.

Lemma end_Say e t (k : Sh A) i :
  snd (perform o (Say e t k) i) = snd (perform o k i).
Proof. cbn [perform]. now destruct (perform o k i). Qed.

Lemma end_Run c (k : Z -> string -> Sh A) i :
  snd (perform o (Run c k) i)
  = snd (perform o (k (fst (o i c)) (snd (o i c))) (S i)).
Proof.
  cbn [perform]. destruct (o i c) as [st out]. cbn [fst snd].
  now destruct (perform o (k st out) (S i)).
Qed.

End Perform.

Lemma commands_bind {A B : Type} (o : Oracle) (p : Sh A) (f : A -> Sh B) i :
  commands (fst (perform o (sh_bind p f) i))
  = commands (fst (perform o p i))
    ++ match snd (perform o p i) with
       | inl _ => []
       | inr a =>
           commands (fst (perform o (f a)
                            (i + length (commands (fst (perform o p i))))))
       end.
Proof.
  rewrite perform_bind. destruct (perform o p i) as [tr [code|a]]; cbn [fst snd].
  - now rewrite app_nil_r.
  - now rewrite commands_app.
Qed.

Lemma end_bind {A B : Type} (o : Oracle) (p : Sh A) (f : A -> Sh B) i :
  snd (perform o (sh_bind p f) i)
  = match snd (perform o p i) with
    | inl code => inl code
    | inr a =>
        snd (perform o (f a) (i + length (commands (fst (perform o p i)))))
    end.
Proof.
  rewrite perform_bind. now destruct (perform o p i) as [tr [code|a]].
Qed.

Ltac sh_open :=
  cbn [sh_bind mbind Sh_bind mret Sh_ret fst snd].

Ltac sh_step :=
  match goal with
  | |- context [perform ?o (Say ?e ?t ?k) ?i] =>
      rewrite ?(commands_Say o e t k i), ?(end_Say o e t k i)
  | |- context [perform ?o (Run ?c ?k) ?i] =>
      rewrite ?(commands_Run o c k i), ?(end_Run o c k i)
  | |- context [perform ?o (Done ?a) ?i] =>
      rewrite ?(commands_Done o a i), ?(end_Done o a i)
  | |- context [perform ?o (@Exit ?A ?code) ?i] =>
      rewrite ?(@commands_Exit A o code i), ?(@end_Exit A o code i)
  | |- context [if ?x =? 0 then _ else _] =>
      let E := fresh "E" in
      destruct (Z.eqb_spec x 0) as [E|E]; [rewrite ?E in *|]
  | |- context [if bool_decide ?P then _ else _] =>
      destruct (bool_decide_reflect P)
  end; sh_open.

(** The texts written play no part in which commands run: they are put
    out of sight first. *)
Ltac sh_hide :=
  repeat match goal with
         | |- context [@Say ?A ?e ?t] =>
             lazymatch t with
             | context [String] =>
                 let m := fresh "msg" in set (m := t) in *; clearbody m
             end
         end.

Ltac sh_run :=
  unfold Deploy.require; unfold Deploy.log, Deploy.warn, Deploy.error, Deploy.info;
  unfold must, attempt, echo, echo_e; sh_hide; sh_open; repeat sh_step.

Ltac sh_names :=
  unfold Deploy.vercel_prod, Deploy.railway_up, Deploy.ask_configured,
         Deploy.npm_install, Deploy.npm_run_build, Deploy.has_railway,
         Deploy.has_vercel, Deploy.railway_whoami, Deploy.vercel_whoami in *.

(** Closes a goal about which commands are in a list that is known. *)
Ltac sh_done :=
  try match goal with
      | H : forall j, ~ _, Y : _ \/ _ |- _ => exfalso; exact (H _ Y)
      end;
  sh_names; cbn [In] in *;
  try solve [ intuition (try discriminate; try congruence; eauto) ].

Lemma check_spec (o : Oracle) i :
  let r := perform o Deploy.check_prerequisites i in
  (snd r = inr tt /\ commands (fst r) = Deploy.checks_passed)
  \/ (snd r = inl 1 /\ Forall (fun cs => In (fst cs) Deploy.checks) (commands (fst r))).
Proof.
  cbv zeta. unfold Deploy.check_prerequisites. sh_run.
  all: first [ left; split; reflexivity | right; split; [reflexivity|] ].
  all: repeat (apply List.Forall_cons; [unfold Deploy.checks; cbn [In fst]; tauto|]);
    apply List.Forall_nil.
Qed.

Lemma backend_spec (o : Oracle) root i :
  let r := perform o (Deploy.deploy_backend root) i in
  (forall st, ~ In (Deploy.vercel_prod, st) (commands (fst r)))
  /\ (snd r = inr tt -> In (Deploy.railway_up, 0) (commands (fst r)))
  /\ (snd r = inl 0 ->
      In (Deploy.ask_configured, 0) (commands (fst r))
      /\ forall st, ~ In (Deploy.railway_up, st) (commands (fst r)))
  /\ ((forall j, ~ (snd (o j Deploy.ask_configured) = "y"
                    \/ snd (o j Deploy.ask_configured) = "Y")) ->
      (exists code, snd r = inl code)
      /\ forall st, ~ In (Deploy.railway_up, st) (commands (fst r))).
Proof.
  cbv zeta. unfold Deploy.deploy_backend. sh_run.
  all: repeat split; intros; sh_done.
Qed.

Lemma frontend_spec (o : Oracle) root i :
  let r := perform o (Deploy.deploy_frontend root) i in
  (forall st, ~ In (Deploy.railway_up, st) (commands (fst r)))
  /\ (snd r = inr tt ->
      In (Deploy.npm_install, 0) (commands (fst r))
      /\ In (Deploy.npm_run_build, 0) (commands (fst r))
      /\ In (Deploy.vercel_prod, 0) (commands (fst r)))
  /\ snd r <> inl 0.
Proof.
  cbv zeta. unfold Deploy.deploy_frontend. sh_run.
  all: repeat split; intros; sh_done.
Qed.

Lemma info_spec (o : Oracle) root i :
  let r := perform o (Deploy.show_deployment_info root) i in
  (forall st, ~ In (Deploy.railway_up, st) (commands (fst r)))
  /\ (forall st, ~ In (Deploy.vercel_prod, st) (commands (fst r)))
  /\ snd r <> inl 0.
Proof.
  cbv zeta. unfold Deploy.show_deployment_info. sh_run.
  all: repeat split; intros; sh_done.
Qed.

Lemma checks_are_no_deploy (o : Oracle) i c st :
  In (c, st) (commands (fst (perform o Deploy.check_prerequisites i))) ->
  In c Deploy.checks.
Proof.
  destruct (check_spec o i) as [[_ Hc] | [_ Hc]]; intros Hin.
  - rewrite Hc in Hin. unfold Deploy.checks_passed in Hin.
    apply in_map_iff in Hin as (c' & Heq & Hc'). now injection Heq as <- _.
  - rewrite List.Forall_forall in Hc. exact (Hc _ Hin).
Qed.

Lemma main_full script root :
  Deploy.main script root ""
  = Say true (Deploy.BLUE +:+ "[DEPLOY]" +:+ Deploy.NC +:+ " "
              +:+ "ニコニ・コモンズベクトル検索システム デプロイを開始します")
      (sh_bind Deploy.check_prerequisites (fun _ =>
       sh_bind (Deploy.deploy_backend root) (fun _ =>
       sh_bind (Deploy.deploy_frontend root) (fun _ =>
       Deploy.show_deployment_info root)))).
Proof. reflexivity. Qed.

Lemma main_backend_only script root :
  Deploy.main script root "--backend-only"
  = Say true (Deploy.BLUE +:+ "[DEPLOY]" +:+ Deploy.NC +:+ " "
              +:+ "バックエンドのみをデプロイします")
      (sh_bind Deploy.check_prerequisites (fun _ => Deploy.deploy_backend root)).
Proof. reflexivity. Qed.

Lemma main_frontend_only script root :
  Deploy.main script root "--frontend-only"
  = Say true (Deploy.BLUE +:+ "[DEPLOY]" +:+ Deploy.NC +:+ " "
              +:+ "フロントエンドのみをデプロイします")
      (sh_bind Deploy.check_prerequisites (fun _ => Deploy.deploy_frontend root)).
Proof. reflexivity. Qed.






Lemma checks_differ :
  ~ In Deploy.railway_up Deploy.checks /\ ~ In Deploy.vercel_prod Deploy.checks
  /\ ~ In Deploy.ask_configured Deploy.checks.
Proof.
  unfold Deploy.checks. repeat split; sh_done.
Qed.

(** A full run, piece by piece: the checks, then the backend, then the
    frontend, then the summary, each only when the one before came to its
    end. *)
Lemma full_spec (o : Oracle) script root :
  let r := perform o (Deploy.main script root "") 0 in
  let cmds := commands (fst r) in
  (forall st, In (Deploy.vercel_prod, st) cmds ->
     exists pre post,
       cmds = pre ++ (Deploy.railway_up, 0) :: post
       /\ In (Deploy.vercel_prod, st) post)
  /\ (status_of (snd r) = 0 ->
      (In (Deploy.railway_up, 0) cmds /\ In (Deploy.npm_install, 0) cmds
       /\ In (Deploy.npm_run_build, 0) cmds /\ In (Deploy.vercel_prod, 0) cmds)
      \/ (In (Deploy.ask_configured, 0) cmds
          /\ (forall st, ~ In (Deploy.railway_up, st) cmds)
          /\ (forall st, ~ In (Deploy.vercel_prod, st) cmds)))
  /\ ((forall j, ~ (snd (o j Deploy.ask_configured) = "y"
                    \/ snd (o j Deploy.ask_configured) = "Y")) ->
      (forall st, ~ In (Deploy.railway_up, st) cmds)
      /\ (forall st, ~ In (Deploy.vercel_prod, st) cmds)).
Proof.
  destruct checks_differ as (Hru & Hvp & Hask).
  cbv zeta. rewrite main_full, commands_Say, end_Say.
  rewrite commands_bind, end_bind.
  pose proof (checks_are_no_deploy o 0) as H1.
  assert (N1 : forall st, ~ In (Deploy.railway_up, st)
                            (commands (fst (perform o Deploy.check_prerequisites 0)))).
  { intros st Hin. now apply H1 in Hin. }
  assert (N1' : forall st, ~ In (Deploy.vercel_prod, st)
                             (commands (fst (perform o Deploy.check_prerequisites 0)))).
  { intros st Hin. now apply H1 in Hin. }
  destruct (check_spec o 0) as [[R1 _] | [R1 _]]; rewrite R1; clear H1.
  2:{ rewrite app_nil_r. cbn [status_of]. repeat split; intros; try discriminate;
        try (exfalso; eapply N1'; eassumption); eauto. }
  set (c1 := commands (fst (perform o Deploy.check_prerequisites 0))) in *.
  rewrite commands_bind, end_bind.
  destruct (backend_spec o root (0 + length c1)) as (B1 & B2 & B3 & B4).
  set (c2 := commands (fst (perform o (Deploy.deploy_backend root) (0 + length c1)))) in *.
  destruct (snd (perform o (Deploy.deploy_backend root) (0 + length c1)))
    as [code2|[]] eqn:R2.
  { (* the backend ended the script *)
    rewrite app_nil_r. cbn [status_of]. split; [|split].
    - intros st Hin. apply in_app_or in Hin as [Hin|Hin]; exfalso;
        [eapply N1' | eapply B1]; eassumption.
    - intros ->. right. destruct (B3 eq_refl) as [Ha Hn].
      split; [apply in_or_app; now right|].
      split; intros st Hin; apply in_app_or in Hin as [Hin|Hin];
        first [ eapply N1; eassumption | eapply N1'; eassumption
              | eapply Hn; eassumption | eapply B1; eassumption ].
    - intros Hno. destruct (B4 Hno) as [_ Hn].
      split; intros st Hin; apply in_app_or in Hin as [Hin|Hin];
        first [ eapply N1; eassumption | eapply N1'; eassumption
              | eapply Hn; eassumption | eapply B1; eassumption ]. }
  specialize (B2 eq_refl).
  rewrite commands_bind, end_bind.
  destruct (frontend_spec o root (0 + length c1 + length c2)) as (F1 & F2 & F3).
  set (c3 := commands (fst (perform o (Deploy.deploy_frontend root)
                              (0 + length c1 + length c2)))) in *.
  assert (Hord : forall rest st,
             In (Deploy.vercel_prod, st) (c1 ++ c2 ++ rest) ->
             exists pre post,
               c1 ++ c2 ++ rest = pre ++ (Deploy.railway_up, 0) :: post
               /\ In (Deploy.vercel_prod, st) post).
  { intros rest st Hin. apply in_split in B2 as (p & q & Hc2).
    exists (c1 ++ p), (q ++ rest). split.
    - rewrite Hc2, <- !app_assoc. reflexivity.
    - apply in_app_or in Hin as [Hin|Hin]; [exfalso; eapply N1'; eassumption|].
      apply in_app_or in Hin as [Hin|Hin]; [exfalso; eapply B1; eassumption|].
      apply in_or_app. now right. }
  assert (Hyes : (forall j, ~ (snd (o j Deploy.ask_configured) = "y"
                               \/ snd (o j Deploy.ask_configured) = "Y")) -> False).
  { intros Hno. destruct (B4 Hno) as [[code Hcode] _]. discriminate. }
  destruct (snd (perform o (Deploy.deploy_frontend root) (0 + length c1 + length c2)))
    as [code3|[]] eqn:R3.
  { rewrite app_nil_r. cbn [status_of]. split; [|split].
    - apply Hord.
    - intros ->. now contradict F3.
    - intros Hno. destruct (Hyes Hno). }
  destruct (F2 eq_refl) as (F21 & F22 & F23).
  destruct (info_spec o root (0 + length c1 + length c2 + length c3)) as (_ & _ & I3).
  split; [|split].
  - apply Hord.
  - intros Hst. left.
    repeat split; apply in_or_app; right; apply in_or_app;
      first [ left; assumption | right; apply in_or_app; left; assumption ].
  - intros Hno. destruct (Hyes Hno).
Qed.

Lemma backend_only_spec (o : Oracle) script root :
  (forall j, ~ (snd (o j Deploy.ask_configured) = "y"
                \/ snd (o j Deploy.ask_configured) = "Y")) ->
  forall st,
    ~ In (Deploy.railway_up, st)
         (commands (fst (perform o (Deploy.main script root "--backend-only") 0))).
Proof.
  intros Hno st. destruct checks_differ as (Hru & _ & _).
  rewrite main_backend_only, commands_Say, commands_bind.
  intros Hin. apply in_app_or in Hin as [Hin|Hin].
  - now apply checks_are_no_deploy in Hin.
  - destruct (snd (perform o Deploy.check_prerequisites 0)) as [code|[]];
      [contradiction|].
    destruct (backend_spec o root
                (0 + length (commands (fst (perform o Deploy.check_prerequisites 0)))))
      as (_ & _ & _ & B4).
    destruct (B4 Hno) as [_ Hn]. exact (Hn st Hin).
Qed.

(** X10: unless the reply at the prompt of [deploy_backend] is [y] or
    [Y], a full run and a run with [--backend-only] never run
    [railway up], and a full run never runs [vercel --prod] either,
    whatever the other commands answer. *)
Theorem nothing_is_deployed_without_a_yes script root (o : Oracle) st :
  (forall j, ~ (snd (o j Deploy.ask_configured) = "y"
                \/ snd (o j Deploy.ask_configured) = "Y")) ->
  ~ In (Deploy.railway_up, st)
       (commands (fst (perform o (Deploy.main script root "") 0)))
  /\ ~ In (Deploy.vercel_prod, st)
         (commands (fst (perform o (Deploy.main script root "") 0)))
  /\ ~ In (Deploy.railway_up, st)
         (commands (fst (perform o (Deploy.main script root "--backend-only") 0))).
Proof.
  intros Hno. destruct (full_spec o script root) as (_ & _ & H).
  destruct (H Hno) as [H1 H2].
  split; [apply H1|]. split; [apply H2|]. now apply backend_only_spec.
Qed.

(** X11: in a full run [vercel --prod] is run only after [railway up] has
    been run and has returned 0. *)
Theorem frontend_is_deployed_after_the_backend script root (o : Oracle) st :
  In (Deploy.vercel_prod, st)
     (commands (fst (perform o (Deploy.main script root "") 0))) ->
  exists pre post,
    commands (fst (perform o (Deploy.main script root "") 0))
    = pre ++ (Deploy.railway_up, 0) :: post
    /\ In (Deploy.vercel_prod, st) post.
Proof.
  destruct (full_spec o script root) as (H & _ & _). apply H.
Qed.

(** X12: a full run that ends with status 0 has either run [railway up],
    [npm install], [npm run build] and [vercel --prod], each returning 0,
    or has stopped at the prompt, the reply read, without running
    [railway up] or [vercel --prod]: the status alone does not tell a
    deployment from a declined one. *)
Theorem status_0_means_deployed_or_declined script root (o : Oracle) :
  status_of (snd (perform o (Deploy.main script root "") 0)) = 0 ->
  let cmds := commands (fst (perform o (Deploy.main script root "") 0)) in
  (In (Deploy.railway_up, 0) cmds /\ In (Deploy.npm_install, 0) cmds
   /\ In (Deploy.npm_run_build, 0) cmds /\ In (Deploy.vercel_prod, 0) cmds)
  \/ (In (Deploy.ask_configured, 0) cmds
      /\ (forall st, ~ In (Deploy.railway_up, st) cmds)
      /\ (forall st, ~ In (Deploy.vercel_prod, st) cmds)).
Proof.
  destruct (full_spec o script root) as (_ & H & _). apply H.
Qed.



Lemma nothing_is_deployed_without_a_yes_witness :
  ~ In (Deploy.railway_up, 0)
       (commands (fst (perform Deploy.reluctant (Deploy.main "deploy.sh" "/repo" "") 0))).
Proof.
  apply (nothing_is_deployed_without_a_yes "deploy.sh" "/repo" Deploy.reluctant 0).
  intros j [H|H]; discriminate H.
Defined.

Lemma frontend_is_deployed_after_the_backend_witness :
  exists pre post,
    commands (fst (perform Deploy.agreeable (Deploy.main "deploy.sh" "/repo" "") 0))
    = pre ++ (Deploy.railway_up, 0) :: post
    /\ In (Deploy.vercel_prod, 0) post.
Proof.
  apply (frontend_is_deployed_after_the_backend "deploy.sh" "/repo" Deploy.agreeable 0).
  vm_compute. tauto.
Defined.

Lemma status_0_means_deployed_or_declined_witness :
  In (Deploy.ask_configured, 0)
     (commands (fst (perform Deploy.reluctant (Deploy.main "deploy.sh" "/repo" "") 0)))
  /\ In (Deploy.vercel_prod, 0)
        (commands (fst (perform Deploy.agreeable (Deploy.main "deploy.sh" "/repo" "") 0))).
Proof.
  split.
  - destruct (status_0_means_deployed_or_declined "deploy.sh" "/repo" Deploy.reluctant
                eq_refl) as [(H & _) | (H & _)]; [|exact H].
    exfalso. revert H. vm_compute. intuition discriminate.
  - destruct (status_0_means_deployed_or_declined "deploy.sh" "/repo" Deploy.agreeable
                eq_refl) as [(_ & _ & _ & H) | (_ & _ & H)]; [exact H|].
    exfalso. apply (H 0). vm_compute. tauto.
Defined.

(** X13: the one-sided options stay on their side: a run with
    [--frontend-only] never runs [railway up], and a run with
    [--backend-only] never runs [vercel --prod], whatever the commands
    answer. *)
Theorem one_sided_options_stay_on_their_side script root (o : Oracle) st :
  ~ In (Deploy.railway_up, st)
       (commands (fst (perform o (Deploy.main script root "--frontend-only") 0)))
  /\ ~ In (Deploy.vercel_prod, st)
         (commands (fst (perform o (Deploy.main script root "--backend-only") 0))).
Proof.
  destruct checks_differ as (Hru & Hvp & _).
  rewrite main_frontend_only, main_backend_only, !commands_Say, !commands_bind.
  split; intros Hin; apply in_app_or in Hin as [Hin|Hin];
    try (now apply checks_are_no_deploy in Hin);
    destruct (snd (perform o Deploy.check_prerequisites 0)) as [code|[]];
    try contradiction.
  - now apply (frontend_spec o root) in Hin.
  - now apply (backend_spec o root) in Hin.
Qed.

End ShellFacts.
